(** * coherent_rates: a shallow embedding of [coherent_rates/system.py]

    The Python module builds a one-dimensional periodic potential, the
    Bloch Hamiltonian over it, a few initial states and a Gaussian fit.
    Python floats and numpy [float64] values are read as real numbers
    (exact arithmetic, no rounding); [complex128] values as pairs of
    reals; Python [int] as [Z].  Functions that can raise return a
    [result].  Where underflow decides what the program returns, the
    function is also given in binary64 (module [Float64]). *)

From Stdlib Require Import String Reals Lra Lia ZArith List Bool.
From Stdlib Require Import Sorting.Sorted.
From Stdlib Require Floats.PrimFloat Numbers.Cyclic.Int63.Uint63.
Import ListNotations.

Local Open Scope R_scope.

(** ** Exceptions *)

Inductive exception : Type :=
| IndexError
| ValueError
| RuntimeError.

Inductive result (A : Type) : Type :=
| Ok (a : A)
| Raise (e : exception).

Arguments Ok {A} a.
Arguments Raise {A} e.

Definition bind {A B : Type} (m : result A) (f : A -> result B) : result B :=
  match m with
  | Ok a => f a
  | Raise e => Raise e
  end.

Notation "x <- m ;; k" := (bind m (fun x => k))
  (at level 61, m at next level, right associativity).

Fixpoint mapM {A B : Type} (f : A -> result B) (l : list A) : result (list B) :=
  match l with
  | [] => Ok []
  | a :: l' => b <- f a ;; bs <- mapM f l' ;; Ok (b :: bs)
  end.

(** ** Numbers *)

(** A [complex128] value: real and imaginary part. *)
Definition C : Type := (R * R)%type.

Definition RtoC (x : R) : C := (x, 0).
Definition Czero : C := RtoC 0.

(** [abs(z) ** 2] *)
Definition Cabs2 (z : C) : R := fst z * fst z + snd z * snd z.

(** [abs(z)] *)
Definition Cabs (z : C) : R := sqrt (Cabs2 z).

(** [np.exp(z)] *)
Definition Cexp (z : C) : C :=
  (exp (fst z) * cos (snd z), exp (fst z) * sin (snd z)).

(** [z * r] and [z / r] for a real [r] *)
Definition Cscale (z : C) (r : R) : C := (fst z * r, snd z * r).
Definition Cdiv_real (z : C) (r : R) : C := (fst z / r, snd z / r).

(** Python's [int(x)] on a float: truncation towards zero. *)
Definition py_int (x : R) : Z :=
  if Rle_dec 0 x then Int_part x else (- Int_part (- x))%Z.

(** ** numpy arrays *)

(** A one-dimensional [np.ndarray], tagged with its dtype. *)
Inductive ndarray : Type :=
| Int64Array (l : list Z)
| Float64Array (l : list R)
| Complex128Array (l : list C).

(** [s * a] for a Python float [s]: an integer array is promoted to
    [float64]. *)
Definition scalar_mul (s : R) (a : ndarray) : ndarray :=
  match a with
  | Int64Array l => Float64Array (map (fun z => s * IZR z) l)
  | Float64Array l => Float64Array (map (fun x => s * x) l)
  | Complex128Array l => Complex128Array (map (fun z => (s * fst z, s * snd z)) l)
  end.

(** [a * s] for a float [s]. *)
Definition mul_scalar (a : ndarray) (s : R) : ndarray :=
  match a with
  | Int64Array l => Float64Array (map (fun z => IZR z * s) l)
  | Float64Array l => Float64Array (map (fun x => x * s) l)
  | Complex128Array l => Complex128Array (map (fun z => Cscale z s) l)
  end.

(** The values of an array once numpy has promoted it to [float64]
    (the real parts, for a complex array). *)
Definition as_float64 (a : ndarray) : list R :=
  match a with
  | Int64Array l => map IZR l
  | Float64Array l => l
  | Complex128Array l => map fst l
  end.

(** [np.zeros(n, dtype=np.complex128)] *)
Definition zeros (n : Z) : result (list C) :=
  if (n <? 0)%Z then Raise ValueError else Ok (repeat Czero (Z.to_nat n)).

(** [a[i] = v] for [0 <= i]: numpy raises [IndexError] past the end. *)
Fixpoint setitem (a : list C) (i : nat) (v : C) : result (list C) :=
  match a, i with
  | [], _ => Raise IndexError
  | _ :: a', O => Ok (v :: a')
  | x :: a', S i' => a'' <- setitem a' i' v ;; Ok (x :: a'')
  end.

(** [range(n)]: empty when [n <= 0]. *)
Definition range (n : Z) : list nat := seq 0 (Z.to_nat n).

(** ** Bases of [surface_potential_analysis] *)

(** The one-dimensional axes that [system.py] constructs or receives.
    [delta_x] is the single component of the axis vector. *)
Inductive Axis : Type :=
| FundamentalBasis (n : Z)
| FundamentalPositionBasis (delta_x : R) (n : Z)
| FundamentalTransformedPositionBasis (delta_x : R) (n : Z)
| TransformedPositionBasis (delta_x : R) (n fundamental_n : Z)
| EvenlySpacedBasis (n step offset : Z)
| EvenlySpacedTransformedPositionBasis (delta_x : R) (n step offset : Z).

Module Axis.

(** [axis.n]: number of states of the axis. *)
Definition n (a : Axis) : Z :=
  match a with
  | FundamentalBasis n
  | FundamentalPositionBasis _ n
  | FundamentalTransformedPositionBasis _ n
  | TransformedPositionBasis _ n _
  | EvenlySpacedBasis n _ _
  | EvenlySpacedTransformedPositionBasis _ n _ _ => n
  end.

(** [axis.fundamental_n]: number of points of the underlying grid. *)
Definition fundamental_n (a : Axis) : Z :=
  match a with
  | FundamentalBasis n
  | FundamentalPositionBasis _ n
  | FundamentalTransformedPositionBasis _ n => n
  | TransformedPositionBasis _ _ fn => fn
  | EvenlySpacedBasis n step _
  | EvenlySpacedTransformedPositionBasis _ n step _ => (n * step)%Z
  end.

(** [axis.delta_x]; a plain index basis has none and is given 0. *)
Definition delta_x (a : Axis) : R :=
  match a with
  | FundamentalBasis _ | EvenlySpacedBasis _ _ _ => 0
  | FundamentalPositionBasis d _
  | FundamentalTransformedPositionBasis d _
  | TransformedPositionBasis d _ _
  | EvenlySpacedTransformedPositionBasis d _ _ _ => d
  end.

(** The indices an evenly spaced axis selects out of its fundamental
    grid: [offset, offset + step, ...], [n] of them; a fundamental
    axis selects all of [0 .. n-1]. *)
Definition indices (a : Axis) : list Z :=
  match a with
  | EvenlySpacedBasis n step offset
  | EvenlySpacedTransformedPositionBasis _ n step offset =>
      map (fun i => (offset + step * Z.of_nat i)%Z) (range n)
  | _ => map Z.of_nat (range (fundamental_n a))
  end.

End Axis.

(** [TupleBasis(axis)]: every stacked basis of [system.py] has exactly
    one axis. *)
Record TupleBasis : Type := mkTupleBasis { axis0 : Axis }.

Definition tuple_n (b : TupleBasis) : Z := Axis.n (axis0 b).
Definition tuple_fundamental_n (b : TupleBasis) : Z := Axis.fundamental_n (axis0 b).

(** Modelled from the spec: [stacked_basis_as_fundamental_momentum_basis]
    of surface_potential_analysis, the plane-wave basis over the whole
    fundamental grid of the axis. *)
Definition stacked_basis_as_fundamental_momentum_basis (b : TupleBasis) : TupleBasis :=
  mkTupleBasis
    (FundamentalTransformedPositionBasis (Axis.delta_x (axis0 b))
                                         (Axis.fundamental_n (axis0 b))).

(** Modelled from the spec: [stacked_basis_as_fundamental_position_basis]
    of surface_potential_analysis, the position basis over the whole
    fundamental grid of the axis. *)
Definition stacked_basis_as_fundamental_position_basis (b : TupleBasis) : TupleBasis :=
  mkTupleBasis
    (FundamentalPositionBasis (Axis.delta_x (axis0 b))
                              (Axis.fundamental_n (axis0 b))).

(** Modelled from the spec: [fundamental_stacked_basis_from_shape] of
    surface_potential_analysis, for a shape of one entry. *)
Definition fundamental_stacked_basis_from_shape (shape : Z) : TupleBasis :=
  mkTupleBasis (FundamentalBasis shape).

(** ** Records of the data model *)

(** The Python code passes potentials, operators, states and value lists
    as dictionaries with the two keys ["basis"] and ["data"]. *)
Record Dict (B D : Type) : Type := mkDict { basis : B; data : D }.

Arguments mkDict {B D} basis data.
Arguments basis {B D} d.
Arguments data {B D} d.

Definition Potential : Type := Dict TupleBasis ndarray.
Definition StateVector : Type := Dict TupleBasis (list C).
(** A single-basis operator: the basis of both indices and the matrix
    rows. *)
Definition Operator : Type := Dict TupleBasis (list (list C)).

Record PeriodicSystem : Type := mkPeriodicSystem {
  id : string;
  barrier_energy : R;
  lattice_constant : R;
  mass : R
}.

(** [shape] and [resolution] are one-entry tuples; the entry is kept. *)
Record PeriodicSystemConfig : Type := mkPeriodicSystemConfig {
  shape : Z;
  resolution : Z;
  n_bands : Z;
  temperature : R
}.

(** [scipy.constants.electron_volt] *)
Definition electron_volt : R := 1.602176634e-19.

Definition HYDROGEN_NICKEL_SYSTEM : PeriodicSystem :=
  mkPeriodicSystem "HNi" 2.5593864192e-20 (2.46e-10 / sqrt 2) 1.67e-27.

Definition SODIUM_COPPER_SYSTEM : PeriodicSystem :=
  mkPeriodicSystem "NaCu" (55e-3 * electron_volt) 3.615e-10 3.8175458e-26.

Definition LITHIUM_COPPER_SYSTEM : PeriodicSystem :=
  mkPeriodicSystem "LiCu" (45e-3 * electron_volt) 3.615e-10 1.152414898e-26.

(** The configuration of the specification's scenario: five unit cells
    of twenty points, one band, 155 K. *)
Definition scenario_config : PeriodicSystemConfig :=
  mkPeriodicSystemConfig 5 20 1 155.

(** ** Potential builder *)

Definition get_potential (system : PeriodicSystem) : Potential :=
  let delta_x := sqrt 3 * lattice_constant system / 2 in
  let axis := FundamentalTransformedPositionBasis delta_x 3 in
  let vector :=
    mul_scalar
      (scalar_mul (0.25 * barrier_energy system) (Int64Array [2; -1; -1]%Z))
      (sqrt 3) in
  mkDict (mkTupleBasis axis) vector.

(** ** The numerical library behind [system.py]

    Basis conversion, the assembly of the kinetic term and the
    diagonalisation are done by surface_potential_analysis (numpy and
    scipy underneath).  [system.py] only chooses their arguments, so they
    are taken as an interface: the operations, and of each only the basis
    or the size of what it returns, as the type annotations of
    [system.py] and the contracts of numpy and scipy give them. *)

(** One eigenpair of a Hermitian operator. *)
Record Eigenstate : Type := mkEigenstate {
  eigenvalue : R;
  vector : list C
}.

Class SurfaceLibrary : Type := {
  (** [convert_potential_to_basis(potential, basis)]: the same potential,
      expressed in [basis]. *)
  convert_potential_to_basis : Potential -> TupleBasis -> Potential;
  convert_potential_to_basis_basis :
    forall p b, basis (convert_potential_to_basis p b) = b;

  (** [total_surface_hamiltonian(potential, mass, bloch_fraction)]: an
      operator over the basis of [potential]. *)
  total_surface_hamiltonian : Potential -> R -> ndarray -> Operator;
  total_surface_hamiltonian_basis :
    forall p m k, basis (total_surface_hamiltonian p m k) = basis p;
  (** The Bloch fraction enters floating-point arithmetic only, where
      numpy promotes an integer array to [float64]. *)
  total_surface_hamiltonian_promote :
    forall p m l,
      total_surface_hamiltonian p m (Int64Array l)
      = total_surface_hamiltonian p m (Float64Array (map IZR l));

  (** Hermitian diagonalisation: one eigenpair per basis state, in
      ascending order of eigenvalue (scipy's [eigh]). *)
  calculate_eigenvectors_hermitian : Operator -> list Eigenstate;
  calculate_eigenvectors_hermitian_length :
    forall h,
      length (calculate_eigenvectors_hermitian h) = Z.to_nat (tuple_n (basis h));
  calculate_eigenvectors_hermitian_sorted :
    forall h,
      StronglySorted Rle (map eigenvalue (calculate_eigenvectors_hermitian h));

  (** The Bloch fractions sampled for a list basis: one per state of the
      list basis. *)
  get_wavepacket_sample_fractions : TupleBasis -> list ndarray;
  get_wavepacket_sample_fractions_length :
    forall b,
      length (get_wavepacket_sample_fractions b) = Z.to_nat (tuple_n b)
}.

(** The Bloch wavefunctions: the bands kept, the list basis of the Bloch
    samples and, per sample, the eigenpairs kept. *)
Record BlochWavefunctionListWithEigenvaluesList : Type := mkBlochWavefunctionList {
  save_bands : Axis;
  list_basis : TupleBasis;
  wavefunctions : list (list Eigenstate)
}.

(** [l[i]] for an index [0 <= i]: [IndexError] past the end. *)
Definition getitem {A : Type} (l : list A) (i : nat) : result A :=
  match nth_error l i with
  | Some a => Ok a
  | None => Raise IndexError
  end.

(** The eigenpair of index [i] of a diagonalisation: scipy's [eigh]
    rejects an index outside [0 .. size-1] with a [ValueError]. *)
Definition subset_by_index (eigenstates : list Eigenstate) (i : Z) : result Eigenstate :=
  if (i <? 0)%Z then Raise ValueError
  else match nth_error eigenstates (Z.to_nat i) with
       | Some a => Ok a
       | None => Raise ValueError
       end.

(** A [for i in ...] loop whose body updates one value and may raise. *)
Fixpoint for_each {S : Type} (l : list nat) (body : nat -> S -> result S) (s : S)
  : result S :=
  match l with
  | [] => Ok s
  | i :: l' => s' <- body i s ;; for_each l' body s'
  end.

(** [np.sum] of a [float64] array. *)
Definition np_sum (l : list R) : R := fold_right Rplus 0 l.

(** Modelled from the spec: [calculate_normalization] of
    surface_potential_analysis, the squared L2 norm of the coefficient
    vector of a state. *)
Definition calculate_normalization (state : StateVector) : R :=
  np_sum (map Cabs2 (data state)).

Section WithLibrary.

Context {L : SurfaceLibrary}.

Definition get_interpolated_potential
    (system : PeriodicSystem) (resolution : Z) : Potential :=
  let potential := get_potential system in
  let old := axis0 (basis potential) in
  let basis :=
    mkTupleBasis
      (TransformedPositionBasis (Axis.delta_x old) (Axis.n old) resolution) in
  let scaled_potential :=
    mul_scalar (data potential) (sqrt (IZR resolution / IZR (Axis.n old))) in
  convert_potential_to_basis
    (mkDict basis scaled_potential)
    (stacked_basis_as_fundamental_momentum_basis basis).

Definition get_extended_interpolated_potential
    (system : PeriodicSystem) (shape resolution : Z) : Potential :=
  let interpolated := get_interpolated_potential system resolution in
  let old := axis0 (basis interpolated) in
  let basis :=
    mkTupleBasis
      (EvenlySpacedTransformedPositionBasis
         (Axis.delta_x old * IZR shape) (Axis.n old) shape 0) in
  let scaled_potential :=
    mul_scalar (data interpolated)
               (sqrt (IZR (tuple_fundamental_n basis) / IZR (Axis.n old))) in
  mkDict basis scaled_potential.

(** ** Hamiltonian assembler *)

Definition _get_full_hamiltonian
    (system : PeriodicSystem) (shape resolution : Z)
    (bloch_fraction : option ndarray) : Operator :=
  let bloch_fraction :=
    match bloch_fraction with
    | None => Int64Array [0%Z]
    | Some k => k
    end in
  let potential := get_extended_interpolated_potential system shape resolution in
  let converted :=
    convert_potential_to_basis
      potential
      (stacked_basis_as_fundamental_position_basis (basis potential)) in
  total_surface_hamiltonian converted (mass system) bloch_fraction.

(** Modelled from the spec: [generate_wavepacket] of
    surface_potential_analysis.  For every Bloch fraction sampled for
    [list_basis] the Hamiltonian of the generator is diagonalised and
    the eigenpairs whose indices [save_bands] selects are kept; asking
    for an index the operator does not have is an error. *)
Definition generate_wavepacket
    (hamiltonian_generator : ndarray -> Operator)
    (save_bands : Axis) (list_basis : TupleBasis)
  : result BlochWavefunctionListWithEigenvaluesList :=
  samples <-
    mapM (fun bloch_fraction =>
            let eigenstates :=
              calculate_eigenvectors_hermitian
                (hamiltonian_generator bloch_fraction) in
            mapM (subset_by_index eigenstates) (Axis.indices save_bands))
         (get_wavepacket_sample_fractions list_basis) ;;
  Ok (mkBlochWavefunctionList save_bands list_basis samples).

(** The closure [hamiltonian_generator] of [get_bloch_wavefunctions]. *)
Definition hamiltonian_generator
    (system : PeriodicSystem) (config : PeriodicSystemConfig)
    (bloch_fraction : ndarray) : Operator :=
  _get_full_hamiltonian system 1 (resolution config) (Some bloch_fraction).

Definition get_bloch_wavefunctions
    (system : PeriodicSystem) (config : PeriodicSystemConfig)
  : result BlochWavefunctionListWithEigenvaluesList :=
  generate_wavepacket
    (hamiltonian_generator system config)
    (EvenlySpacedBasis (n_bands config) 1 0)
    (fundamental_stacked_basis_from_shape (shape config)).

(** ** State sampler *)

Definition get_step_state
    (system : PeriodicSystem) (config : PeriodicSystemConfig)
    (fraction : option R) : result StateVector :=
  let potential :=
    get_extended_interpolated_potential system (shape config) (resolution config) in
  let basis := stacked_basis_as_fundamental_position_basis (basis potential) in
  data_ <- zeros (tuple_n basis) ;;
  let n_non_zero :=
    match fraction with
    | None => 1%Z
    | Some fraction => py_int (fraction * IZR (tuple_n basis))
    end in
  data_ <-
    for_each (range n_non_zero)
             (fun i data_ => setitem data_ i (RtoC (1 / sqrt (IZR n_non_zero))))
             data_ ;;
  Ok (mkDict basis data_).

Definition get_gaussian_state
    (system : PeriodicSystem) (config : PeriodicSystemConfig)
    (fraction : R) : result StateVector :=
  let potential :=
    get_extended_interpolated_potential system (shape config) (resolution config) in
  let basis := stacked_basis_as_fundamental_position_basis (basis potential) in
  let size := tuple_n basis in
  let width := IZR size * fraction in
  data_ <- zeros (tuple_n basis) ;;
  data_ <-
    for_each (range size)
             (fun i data_ =>
                setitem data_ i
                  (RtoC (- Rsqr (INR i - IZR size / 2) / (2 * width * width))))
             data_ ;;
  let data_ := map Cexp data_ in
  let initial_state : StateVector := mkDict basis data_ in
  Ok (mkDict basis
        (map (fun z => Cdiv_real z (sqrt (calculate_normalization initial_state)))
             (data initial_state))).

End WithLibrary.

(** ** Gaussian fit *)

(** A basis with times: [system.py] reads its [times] only. *)
Record BasisWithTimeLike : Type := mkBasisWithTime { times : list R }.

Definition ValueList : Type := Dict BasisWithTimeLike (list C).

(** Modelled from the spec: the [times] of an evenly spaced time grid of
    [n] points, with first time [t0] and step [dt] between consecutive
    points. *)
Definition evenly_spaced_times (n : nat) (t0 dt : R) : list R :=
  map (fun i => t0 + INR i * dt) (seq 0 n).

(** Modelled from the spec: [get_measured_data(data, "abs")] of
    surface_potential_analysis, the magnitudes of the values. *)
Definition get_measured_data_abs (values : list C) : list R := map Cabs values.

(** [scipy.optimize.curve_fit(f, xdata, ydata)] for a model [f] of two
    parameters: the fitted parameters and their 2x2 covariance, or an
    error when the optimiser does not converge. *)
Class Scipy : Type := {
  curve_fit :
    (list R -> R -> R -> list R) -> list R -> list R ->
    result ((R * R) * ((R * R) * (R * R)))
}.

(** The inner function [gauss] of [get_gaussian_fit]. *)
Definition gauss (x : list R) (a b : R) : list R :=
  map (fun x => a * exp (-1 * Rsqr (x / b) / 2)) x.

Definition get_gaussian_fit {S : Scipy} (values : ValueList)
  : result (R * R * R * R) :=
  let times_ := basis values in
  let xdata := times times_ in
  let xdata1 := map INR (range (Z.of_nat (List.length xdata))) in
  let ydata := get_measured_data_abs (data values) in
  fit <- curve_fit gauss xdata1 ydata ;;
  let parameters := fst fit in
  let covariance := snd fit in
  let fit_A := fst parameters in
  let fit_B := snd parameters in
  dt <- getitem (times times_) 1 ;;
  Ok (fit_A,
      sqrt (fst (fst covariance)),
      fit_B * dt,
      sqrt (snd (snd covariance)) * dt).

(** ** The Gaussian envelope of the specification

    Written from the spec's words, to be compared with what
    [get_gaussian_state] computes: a Gaussian in the site index [i],
    centred at [N / 2], of width [fraction * N]. *)
Definition gaussian_envelope (N : Z) (fraction : R) (i : nat) : R :=
  exp (- (INR i - IZR N / 2) ^ 2 / (2 * (fraction * IZR N) ^ 2)).

(** The noiseless series of the specification: [a * exp(-(i/b)^2 / 2)]
    at the indices [0 .. n-1], over the time grid that starts at
    [t0] and advances by [dt]. *)
Definition synthetic_series (n : nat) (t0 dt a b : R) : ValueList :=
  mkDict (mkBasisWithTime (evenly_spaced_times n t0 dt))
         (map (fun i => RtoC (a * exp (-1 * Rsqr (INR i / b) / 2))) (seq 0 n)).

(** ** A small library that satisfies the interface

    The interface above is consistent: the library below, in which the
    kinetic term is dropped and the potential is flat, so that every
    Hamiltonian is the zero matrix, satisfies it.  It serves to run the
    functions on concrete inputs. *)

Definition unit_vector (n i : nat) : list C :=
  map (fun j => if Nat.eqb i j then RtoC 1 else Czero) (seq 0 n).

Definition zero_matrix (n : nat) : list (list C) :=
  repeat (repeat Czero n) n.

Definition null_library : SurfaceLibrary.
Proof.
  refine
    {| convert_potential_to_basis := fun p b => mkDict b (data p);
       total_surface_hamiltonian := fun p _ _ =>
         mkDict (basis p) (zero_matrix (Z.to_nat (tuple_n (basis p))));
       calculate_eigenvectors_hermitian := fun h =>
         let n := Z.to_nat (tuple_n (basis h)) in
         map (fun i => mkEigenstate 0 (unit_vector n i)) (seq 0 n);
       get_wavepacket_sample_fractions := fun b =>
         let n := Z.to_nat (tuple_n b) in
         map (fun i => Float64Array [INR i / INR n]) (seq 0 n) |}.
  - reflexivity.
  - reflexivity.
  - reflexivity.
  - intros h. simpl. rewrite length_map, length_seq. reflexivity.
  - intros h. cbv zeta. rewrite map_map. cbn [eigenvalue].
    induction (seq 0 (Z.to_nat (tuple_n (basis h)))) as [|i l IH]; cbn [map].
    + constructor.
    + constructor; [exact IH|].
      apply Forall_forall. intros x Hx. apply in_map_iff in Hx.
      destruct Hx as [_ [<- _]]. lra.
  - intros b. simpl. rewrite length_map, length_seq. reflexivity.
Defined.

(** An optimiser that reports the parameters [(a, b)] with zero
    covariance whatever the data. *)
Definition fixed_fit (a b : R) : Scipy :=
  {| curve_fit := fun _ _ _ => Ok ((a, b), ((0, 0), (0, 0))) |}.

(** ** Caldeira-Leggett operator *)

(** [scipy.constants.k], the Boltzmann constant, and
    [scipy.constants.hbar]. *)
Definition k : R := 1.380649e-23.
Definition hbar : R := 6.62607015e-34 / (2 * PI).

Definition Cadd (z w : C) : C := (fst z + fst w, snd z + snd w).
Definition Copp (z : C) : C := (- fst z, - snd z).
(** [z - r] for a real [r] *)
Definition Csub_real (z : C) (r : R) : C := (fst z - r, snd z).

(** The entries of an array as [complex128] values, as they are once
    stored into a complex array. *)
Definition as_complex128 (a : ndarray) : list C :=
  match a with
  | Int64Array l => map (fun z => RtoC (IZR z)) l
  | Float64Array l => map RtoC l
  | Complex128Array l => l
  end.

(** [a[i]] for a Python integer [i]: a negative index counts from the
    end, an index outside the array raises [IndexError]. *)
Definition ndarray_getitem (a : ndarray) (i : Z) : result C :=
  let n := Z.of_nat (List.length (as_complex128 a)) in
  let i := if (i <? 0)%Z then (i + n)%Z else i in
  if ((i <? 0) || (n <=? i))%Z then Raise IndexError
  else getitem (as_complex128 a) (Z.to_nat i).

(** [np.zeros((n, n), dtype=np.complex128)] *)
Definition zeros2 (n : Z) : result (list (list C)) :=
  if (n <? 0)%Z then Raise ValueError
  else Ok (repeat (repeat Czero (Z.to_nat n)) (Z.to_nat n)).

(** [m[i][j] = v] and [m[i][j]] for indices [0 <= i, j]. *)
Fixpoint setitem2 (m : list (list C)) (i j : nat) (v : C)
  : result (list (list C)) :=
  match m, i with
  | [], _ => Raise IndexError
  | row :: m', O => row' <- setitem row j v ;; Ok (row' :: m')
  | row :: m', S i' => m'' <- setitem2 m' i' j v ;; Ok (row :: m'')
  end.

Definition getitem2 (m : list (list C)) (i j : nat) : result C :=
  row <- getitem m i ;; getitem row j.

(** Modelled from the spec: [convert_potential_to_position_basis] of
    surface_potential_analysis, the conversion to the position basis
    over the fundamental grid, as [_get_full_hamiltonian] writes it out. *)
Definition convert_potential_to_position_basis {L : SurfaceLibrary}
    (potential : Potential) : Potential :=
  convert_potential_to_basis
    potential
    (stacked_basis_as_fundamental_position_basis (basis potential)).

(** The right-hand side stored at [matrix[i][j]] by [get_cl_operator]. *)
Definition cl_exponent
    (system : PeriodicSystem) (config : PeriodicSystemConfig)
    (data_ : ndarray) (size_position : Z) (i j : nat) : result C :=
  let x_spacing :=
    lattice_constant system * sqrt 3 / (2 * IZR (resolution config)) in
  let m := mass system in
  d0 <- ndarray_getitem data_ (py_int (IZR (Z.of_nat i + Z.of_nat j) / 2)) ;;
  d1 <- ndarray_getitem data_ (py_int (IZR (Z.of_nat i + Z.of_nat j + 1) / 2)) ;;
  Ok (Csub_real
        (Cdiv_real (Copp (Cadd d0 d1)) (2 * k * temperature config))
        ((m * k * temperature config * Rsqr x_spacing)
         * IZR (Z.square
                  ((Z.of_nat i - Z.of_nat j + size_position / 2) mod size_position
                   - size_position / 2))
         / (2 * Rsqr hbar))).

Definition get_cl_operator {L : SurfaceLibrary}
    (system : PeriodicSystem) (config : PeriodicSystemConfig)
  : result Operator :=
  let potential :=
    get_extended_interpolated_potential system (shape config) (resolution config) in
  let converted_potential := convert_potential_to_position_basis potential in
  let size_position := tuple_n (basis converted_potential) in
  let data_ := data converted_potential in
  matrix <- zeros2 size_position ;;
  matrix <-
    for_each (range size_position)
      (fun i matrix =>
         for_each (range (Z.of_nat i + 1))
           (fun j matrix =>
              v <- cl_exponent system config data_ size_position i j ;;
              matrix <- setitem2 matrix i j v ;;
              v' <- getitem2 matrix i j ;;
              setitem2 matrix j i v')
           matrix)
      matrix ;;
  let matrix_pos := map (map Cexp) matrix in
  Ok (mkDict (basis converted_potential) matrix_pos).

(** The [n] x [n] matrix whose entry in row [r] and column [c] is
    [g r c]. *)
Definition mat_of (n : nat) (g : nat -> nat -> C) : list (list C) :=
  map (fun r => map (g r) (seq 0 n)) (seq 0 n).

(** [g] with the entry at [(r, c)] replaced by [v]. *)
Definition upd (g : nat -> nat -> C) (r c : nat) (v : C) : nat -> nat -> C :=
  fun r' c' => if (Nat.eqb r' r && Nat.eqb c' c)%bool then v else g r' c'.

(** The value [get_cl_operator] stores at [matrix[i][j]], for an array
    [d] of potential values read with a default instead of an error. *)
Definition cl_value
    (system : PeriodicSystem) (config : PeriodicSystemConfig)
    (d : list C) (size_position : Z) (i j : nat) : C :=
  Csub_real
    (Cdiv_real
       (Copp (Cadd (nth ((i + j) / 2) d Czero) (nth ((i + j + 1) / 2) d Czero)))
       (2 * k * temperature config))
    ((mass system * k * temperature config
      * Rsqr (lattice_constant system * sqrt 3 / (2 * IZR (resolution config))))
     * IZR (Z.square
              ((Z.of_nat i - Z.of_nat j + size_position / 2) mod size_position
               - size_position / 2))
     / (2 * Rsqr hbar)).

(** The distance between the sites [r] and [c] of a ring of [n] sites. *)
Definition periodic_distance (n : Z) (r c : nat) : Z :=
  Z.min (Z.abs (Z.of_nat r - Z.of_nat c))
        (n - Z.abs (Z.of_nat r - Z.of_nat c)).

(** The local [converted_potential] of [get_cl_operator]. *)
Definition converted_potential {L : SurfaceLibrary}
    (system : PeriodicSystem) (config : PeriodicSystemConfig) : Potential :=
  convert_potential_to_position_basis
    (get_extended_interpolated_potential
       system (shape config) (resolution config)).

(** A configuration of one unit cell of three points. *)
Definition three_point_config : PeriodicSystemConfig :=
  mkPeriodicSystemConfig 1 3 1 155.

(** The exponent [get_gaussian_state] stores at [data[i]] before
    [np.exp], for a basis of [size] sites. *)
Definition gaussian_exponent (size : Z) (fraction : R) (i : nat) : R :=
  - Rsqr (INR i - IZR size / 2)
  / (2 * (IZR size * fraction) * (IZR size * fraction)).

(** The value of a result under a function, an error left as it is. *)
Definition result_map {A B : Type} (f : A -> B) (m : result A) : result B :=
  match m with
  | Ok a => Ok (f a)
  | Raise e => Raise e
  end.

(** ** The Gaussian state in binary64

    [get_gaussian_state] once more, with Python floats and the entries
    of the [complex128] array as IEEE 754 binary64 numbers: products and
    quotients round, underflow to zero and produce [nan] as they do in
    the program.  The basis is the one of the exact model. *)

Module Float64.

Import PrimFloat.
Local Open Scope float_scope.

(** A [complex128] value. *)
Definition complex128 : Type := (float * float)%type.

(** A Python [int] as a float, exact below [2^53] in magnitude. *)
Definition of_int (z : Z) : float :=
  if (z <? 0)%Z then - of_uint63 (Uint63.of_Z (- z))
  else of_uint63 (Uint63.of_Z z).

(** [np.zeros(n, dtype=np.complex128)] *)
Definition zeros (n : Z) : result (list complex128) :=
  if (n <? 0)%Z then Raise ValueError else Ok (repeat (0, 0) (Z.to_nat n)).

(** [a[i] = v] for [0 <= i]. *)
Fixpoint setitem (a : list complex128) (i : nat) (v : complex128)
  : result (list complex128) :=
  match a, i with
  | [], _ => Raise IndexError
  | _ :: a', O => Ok (v :: a')
  | x :: a', S i' => a'' <- setitem a' i' v ;; Ok (x :: a'')
  end.

(** [np.exp] on [complex128] values, of which only the IEEE special
    value [exp(-inf + 0j) = 0] is used. *)
Class Libm : Type := {
  np_exp : complex128 -> complex128;
  np_exp_neg_infinity : np_exp (neg_infinity, 0) = (0, 0)
}.

(** [np.sum] of a [float64] array, summed from the left. *)
Definition np_sum (l : list float) : float := fold_left add l 0.

(** Modelled from the spec: [calculate_normalization] of
    surface_potential_analysis, the sum of the squared magnitudes. *)
Definition calculate_normalization (data_ : list complex128) : float :=
  np_sum (map (fun z => fst z * fst z + snd z * snd z) data_).

(** [z / r] for a float [r]. *)
Definition div_real (z : complex128) (r : float) : complex128 :=
  (fst z / r, snd z / r).

Definition get_gaussian_state {L : SurfaceLibrary} {M : Libm}
    (system : PeriodicSystem) (config : PeriodicSystemConfig)
    (fraction : float) : result (Dict TupleBasis (list complex128)) :=
  let potential :=
    get_extended_interpolated_potential system (shape config) (resolution config) in
  let basis := stacked_basis_as_fundamental_position_basis (basis potential) in
  let size := tuple_n basis in
  let width := of_int size * fraction in
  data_ <- zeros (tuple_n basis) ;;
  data_ <-
    for_each (range size)
             (fun i data_ =>
                setitem data_ i
                  (- ((of_int (Z.of_nat i) - of_int size / 2)
                      * (of_int (Z.of_nat i) - of_int size / 2))
                   / (2 * width * width),
                   0))
             data_ ;;
  let data_ := map np_exp data_ in
  Ok (mkDict basis
        (map (fun z => div_real z (sqrt (calculate_normalization data_))) data_)).

(** An exponential that is exact at the special values and computed by
    repeated squaring elsewhere, on the real axis; it shows that the
    interface [Libm] can be met. *)
Definition exp_by_squaring (x : float) : float :=
  if is_nan x then nan
  else if x <? -746 then 0
  else if 710 <? x then infinity
  else Nat.iter 30 (fun y => y * y) (1 + x / 1073741824).

Definition real_axis_libm : Libm :=
  {| np_exp := fun z => (exp_by_squaring (fst z), 0);
     np_exp_neg_infinity := eq_refl |}.

(** The binary64 number nearest to [1e-200], Python's [1e-200]. *)
Definition tiny : float := 0x1.87e92154ef7acp-665.

End Float64.

(** A configuration of one unit cell of five points. *)
Definition five_site_config : PeriodicSystemConfig :=
  mkPeriodicSystemConfig 1 5 1 155.

(** * Properties *)

(** ** Integer part *)

Lemma Int_part_between (x : R) (k : Z) :
  IZR k <= x -> x < IZR k + 1 -> Int_part x = k.
Proof.
  intros Hlo Hhi. unfold Int_part.
  assert (Hup : (k + 1)%Z = up x).
  { apply tech_up; rewrite plus_IZR; simpl; lra. }
  lia.
Qed.

Lemma py_int_between (x : R) (k : Z) :
  (0 <= k)%Z -> IZR k <= x -> x < IZR k + 1 -> py_int x = k.
Proof.
  intros Hk Hlo Hhi. unfold py_int.
  apply IZR_le in Hk.
  destruct (Rle_dec 0 x) as [_|Hneg]; [|lra].
  now apply Int_part_between.
Qed.

Lemma py_int_IZR (k : Z) : (0 <= k)%Z -> py_int (IZR k) = k.
Proof. intros Hk. apply py_int_between; [exact Hk | lra | lra]. Qed.

(** ** Potential builder *)

(** C4: [get_potential] returns the three plane-wave coefficients
    [0.25 * barrier_energy * [2, -1, -1] * sqrt 3] on a fundamental
    transformed-position axis of three states whose [delta_x] is
    [sqrt 3 * lattice_constant / 2]; the result is a function of the
    barrier energy and the lattice constant alone, so two calls on the
    same system give the same potential. *)
Theorem get_potential_spec :
  forall system : PeriodicSystem,
    get_potential system =
      mkDict
        (mkTupleBasis
           (FundamentalTransformedPositionBasis
              (sqrt 3 * lattice_constant system / 2) 3))
        (Float64Array
           [0.25 * barrier_energy system * 2 * sqrt 3;
            0.25 * barrier_energy system * (-1) * sqrt 3;
            0.25 * barrier_energy system * (-1) * sqrt 3])
    /\ Axis.delta_x (axis0 (basis (get_potential system)))
       = sqrt 3 * lattice_constant system / 2
    /\ Axis.fundamental_n (axis0 (basis (get_potential system))) = 3%Z
    /\ as_float64 (data (get_potential system))
       = map (fun c => barrier_energy system * IZR c * (sqrt 3 / 4)) [2; -1; -1]%Z
    /\ (forall (id' : string) (mass' : R),
          get_potential
            (mkPeriodicSystem id' (barrier_energy system)
               (lattice_constant system) mass')
          = get_potential system).
Proof.
  intros system. repeat split.
  unfold get_potential. cbn [data mul_scalar scalar_mul as_float64 map].
  repeat (f_equal; try lra).
Qed.

Section Bases.

Context {L : SurfaceLibrary}.

Lemma get_interpolated_potential_basis system resolution :
  basis (get_interpolated_potential system resolution)
  = mkTupleBasis
      (FundamentalTransformedPositionBasis
         (sqrt 3 * lattice_constant system / 2) resolution).
Proof.
  unfold get_interpolated_potential.
  rewrite convert_potential_to_basis_basis. reflexivity.
Qed.

Lemma get_extended_interpolated_potential_basis system shape resolution :
  basis (get_extended_interpolated_potential system shape resolution)
  = mkTupleBasis
      (EvenlySpacedTransformedPositionBasis
         (sqrt 3 * lattice_constant system / 2 * IZR shape)
         resolution shape 0).
Proof.
  unfold get_extended_interpolated_potential. cbn [basis].
  rewrite get_interpolated_potential_basis. reflexivity.
Qed.

(** The Hamiltonian is an operator over the position basis of the whole
    extended cell: [resolution * shape] points. *)
Lemma _get_full_hamiltonian_basis system shape resolution bloch_fraction :
  basis (_get_full_hamiltonian system shape resolution bloch_fraction)
  = mkTupleBasis
      (FundamentalPositionBasis
         (sqrt 3 * lattice_constant system / 2 * IZR shape)
         (resolution * shape)).
Proof.
  unfold _get_full_hamiltonian.
  rewrite total_surface_hamiltonian_basis, convert_potential_to_basis_basis.
  rewrite get_extended_interpolated_potential_basis. reflexivity.
Qed.

End Bases.

(** ** Hamiltonian assembler *)

(** C8: without a Bloch fraction [_get_full_hamiltonian] builds the
    operator of the Bloch fraction [[0.]]. *)
Theorem _get_full_hamiltonian_default :
  forall (L : SurfaceLibrary) (system : PeriodicSystem) (shape resolution : Z),
    _get_full_hamiltonian system shape resolution None
    = _get_full_hamiltonian system shape resolution (Some (Float64Array [0])).
Proof.
  intros L system shape resolution. unfold _get_full_hamiltonian.
  rewrite total_surface_hamiltonian_promote. reflexivity.
Qed.

(** The closure passes shape [(1,)] and [config.resolution]: its operator
    is over [config.resolution] basis states and does not change with
    [config.shape]. *)
Lemma hamiltonian_generator_single_cell :
  forall (L : SurfaceLibrary) (system : PeriodicSystem)
         (config : PeriodicSystemConfig) (bloch_fraction : ndarray),
    hamiltonian_generator system config bloch_fraction
    = _get_full_hamiltonian system 1 (resolution config) (Some bloch_fraction)
    /\ tuple_n (basis (hamiltonian_generator system config bloch_fraction))
       = resolution config
    /\ (forall shape' : Z,
          hamiltonian_generator system
            (mkPeriodicSystemConfig shape' (resolution config) (n_bands config)
               (temperature config))
            bloch_fraction
          = hamiltonian_generator system config bloch_fraction)
    /\ List.length
         (get_wavepacket_sample_fractions
            (fundamental_stacked_basis_from_shape (shape config)))
       = Z.to_nat (shape config).
Proof.
  intros L system config bloch_fraction. split; [reflexivity|]. split; [|split].
  - unfold hamiltonian_generator. rewrite _get_full_hamiltonian_basis.
    unfold tuple_n. simpl. lia.
  - intros shape'. reflexivity.
  - apply get_wavepacket_sample_fractions_length.
Qed.

(** ** Band solver *)

Lemma mapM_ok {A B : Type} (f : A -> result B) (g : A -> B) (l : list A) :
  (forall a, In a l -> f a = Ok (g a)) -> mapM f l = Ok (map g l).
Proof.
  induction l as [|a l IH]; intros Hf; simpl.
  - reflexivity.
  - rewrite (Hf a (or_introl eq_refl)). simpl.
    rewrite IH by (intros b Hb; apply Hf; right; exact Hb). reflexivity.
Qed.

Lemma mapM_raise {A B : Type} (f : A -> result B) (e : exception)
      (a : A) (l : list A) :
  f a = Raise e -> mapM f (a :: l) = Raise e.
Proof. intros H. simpl. rewrite H. reflexivity. Qed.

Lemma indices_evenly_spaced_unit (n : Z) :
  Axis.indices (EvenlySpacedBasis n 1 0) = map Z.of_nat (seq 0 (Z.to_nat n)).
Proof.
  unfold Axis.indices, range. apply map_ext. intros i. lia.
Qed.

Lemma skipn_nth_error {A : Type} (l : list A) (k : nat) (a : A) :
  nth_error l k = Some a -> skipn k l = a :: skipn (S k) l.
Proof.
  revert l. induction k as [|k IH]; intros [|x l] H; simpl in H; try discriminate.
  - injection H as ->. reflexivity.
  - change (skipn (S k) (x :: l)) with (skipn k l). rewrite (IH l H). reflexivity.
Qed.

Lemma subset_by_index_prefix (eigenstates : list Eigenstate) (m k : nat) :
  (k + m <= List.length eigenstates)%nat ->
  mapM (subset_by_index eigenstates) (map Z.of_nat (seq k m))
  = Ok (firstn m (skipn k eigenstates)).
Proof.
  revert k. induction m as [|m IH]; intros k Hlen.
  - reflexivity.
  - cbn [seq map mapM]. unfold subset_by_index at 1.
    destruct (Z.ltb_spec (Z.of_nat k) 0) as [Hneg|_]; [lia|].
    rewrite Nat2Z.id.
    destruct (nth_error eigenstates k) as [e|] eqn:He.
    2:{ apply nth_error_None in He. lia. }
    cbn [bind]. rewrite IH by lia. cbn [bind].
    rewrite (skipn_nth_error _ _ _ He). reflexivity.
Qed.

Lemma subset_by_index_past_end (eigenstates : list Eigenstate) (i : Z) :
  (Z.of_nat (List.length eigenstates) <= i)%Z ->
  subset_by_index eigenstates i = Raise ValueError.
Proof.
  intros Hi. unfold subset_by_index.
  destruct (i <? 0)%Z; [reflexivity|].
  destruct (nth_error eigenstates (Z.to_nat i)) as [e|] eqn:He; [|reflexivity].
  assert (Hlt : (Z.to_nat i < List.length eigenstates)%nat).
  { apply nth_error_Some. rewrite He. discriminate. }
  lia.
Qed.

Lemma sorted_prefix_below (l : list R) (m : nat) :
  StronglySorted Rle l ->
  Forall (fun lo => Forall (fun hi => lo <= hi) (skipn m l)) (firstn m l).
Proof.
  intros Hs. revert m. induction Hs as [|x l Hs IH Hx]; intros m.
  - rewrite firstn_nil. constructor.
  - destruct m as [|m]; simpl; [constructor|].
    constructor; [|apply IH].
    apply Forall_forall. intros hi Hhi.
    rewrite Forall_forall in Hx. apply Hx.
    rewrite <- (firstn_skipn m l). apply in_or_app. right. exact Hhi.
Qed.

Section BandSolver.

Context {L : SurfaceLibrary}.

Lemma hamiltonian_generator_eigenstates system config bloch_fraction :
  List.length
    (calculate_eigenvectors_hermitian
       (hamiltonian_generator system config bloch_fraction))
  = Z.to_nat (resolution config).
Proof.
  rewrite calculate_eigenvectors_hermitian_length.
  unfold hamiltonian_generator. rewrite _get_full_hamiltonian_basis.
  unfold tuple_n. simpl. f_equal. lia.
Qed.

(** Asking for more bands than a unit cell has basis states fails at
    the first Bloch sample. *)
Lemma get_bloch_wavefunctions_too_many_bands system config :
  (0 < shape config)%Z ->
  (0 <= resolution config < n_bands config)%Z ->
  get_bloch_wavefunctions system config = Raise ValueError.
Proof.
  intros Hshape Hres.
  unfold get_bloch_wavefunctions, generate_wavepacket.
  pose proof (get_wavepacket_sample_fractions_length
                (fundamental_stacked_basis_from_shape (shape config))) as Hlen.
  unfold tuple_n in Hlen. simpl in Hlen.
  destruct (get_wavepacket_sample_fractions
              (fundamental_stacked_basis_from_shape (shape config)))
    as [|k ks]; [simpl in Hlen; lia|].
  rewrite (mapM_raise _ ValueError); [reflexivity|].
  rewrite indices_evenly_spaced_unit.
  set (eig := calculate_eigenvectors_hermitian _).
  assert (Heig : List.length eig = Z.to_nat (resolution config))
    by apply hamiltonian_generator_eigenstates.
  replace (Z.to_nat (n_bands config))
    with (Z.to_nat (resolution config) + S (Z.to_nat (n_bands config - resolution config - 1)))%nat
    by lia.
  rewrite seq_app, map_app. cbn [seq map].
  rewrite Nat.add_0_l.
  generalize (map Z.of_nat
                (seq (S (Z.to_nat (resolution config)))
                     (Z.to_nat (n_bands config - resolution config - 1)))).
  intros tail.
  assert (Hpre : mapM (subset_by_index eig)
                   (map Z.of_nat (seq 0 (Z.to_nat (resolution config))))
                 = Ok (firstn (Z.to_nat (resolution config)) (skipn 0 eig))).
  { apply subset_by_index_prefix. lia. }
  revert Hpre.
  generalize (firstn (Z.to_nat (resolution config)) (skipn 0 eig)).
  generalize (map Z.of_nat (seq 0 (Z.to_nat (resolution config)))).
  intros pre. induction pre as [|i pre IH]; intros kept Hpre.
  - cbn [app]. apply mapM_raise. apply subset_by_index_past_end. lia.
  - cbn [app mapM] in *.
    destruct (subset_by_index eig i); cbn [bind] in *; [|discriminate].
    destruct (mapM (subset_by_index eig) pre) as [kept'|] eqn:Hk;
      cbn [bind] in *; [|discriminate].
    rewrite (IH kept' eq_refl). reflexivity.
Qed.

End BandSolver.

(** C5 (amended): when [0 < config.n_bands <= config.resolution],
    [get_bloch_wavefunctions] returns one entry per Bloch fraction of a
    list basis of [config.shape] states; the entry of a Bloch fraction
    holds the eigenpairs of indices [0, 1, ..., n_bands - 1] (step 1,
    offset 0) of the Hamiltonian at this fraction, [n_bands] of them,
    and none of the others has a lower eigenvalue. *)
Theorem get_bloch_wavefunctions_spec :
  forall (L : SurfaceLibrary) (system : PeriodicSystem)
         (config : PeriodicSystemConfig),
    (0 < shape config)%Z ->
    (0 < resolution config)%Z ->
    (0 < n_bands config <= resolution config)%Z ->
    exists w : BlochWavefunctionListWithEigenvaluesList,
      get_bloch_wavefunctions system config = Ok w
      /\ tuple_n (list_basis w) = shape config
      /\ List.length (wavefunctions w) = Z.to_nat (shape config)
      /\ save_bands w = EvenlySpacedBasis (n_bands config) 1 0
      /\ Axis.indices (save_bands w)
         = map Z.of_nat (seq 0 (Z.to_nat (n_bands config)))
      /\ wavefunctions w
         = map (fun bloch_fraction =>
                  firstn (Z.to_nat (n_bands config))
                    (calculate_eigenvectors_hermitian
                       (hamiltonian_generator system config bloch_fraction)))
               (get_wavepacket_sample_fractions (list_basis w))
      /\ Forall (fun kept => List.length kept = Z.to_nat (n_bands config))
                (wavefunctions w)
      /\ Forall (fun bloch_fraction =>
                   let eigenvalues :=
                     map eigenvalue
                       (calculate_eigenvectors_hermitian
                          (hamiltonian_generator system config bloch_fraction)) in
                   Forall (fun kept =>
                             Forall (fun dropped => kept <= dropped)
                                    (skipn (Z.to_nat (n_bands config)) eigenvalues))
                          (firstn (Z.to_nat (n_bands config)) eigenvalues))
                (get_wavepacket_sample_fractions (list_basis w)).
Proof.
  intros L system config Hshape Hres Hbands.
  unfold get_bloch_wavefunctions, generate_wavepacket.
  rewrite indices_evenly_spaced_unit.
  rewrite (mapM_ok _
             (fun bloch_fraction =>
                firstn (Z.to_nat (n_bands config))
                  (calculate_eigenvectors_hermitian
                     (hamiltonian_generator system config bloch_fraction)))).
  2:{ intros k _.
      rewrite subset_by_index_prefix; [reflexivity|].
      rewrite hamiltonian_generator_eigenstates. lia. }
  cbn [bind]. eexists. split; [reflexivity|]. cbn [list_basis wavefunctions save_bands].
  repeat split.
  - rewrite length_map, get_wavepacket_sample_fractions_length. reflexivity.
  - apply indices_evenly_spaced_unit.
  - apply Forall_forall. intros kept Hin. apply in_map_iff in Hin.
    destruct Hin as [k [<- _]].
    rewrite length_firstn, hamiltonian_generator_eigenstates. lia.
  - apply Forall_forall. intros k _. cbv zeta.
    apply sorted_prefix_below. apply calculate_eigenvectors_hermitian_sorted.
Qed.

Lemma get_bloch_wavefunctions_spec_witness :
  (0 < shape scenario_config)%Z
  /\ (0 < resolution scenario_config)%Z
  /\ (0 < n_bands scenario_config
      <= resolution scenario_config)%Z
  /\ exists w : BlochWavefunctionListWithEigenvaluesList,
      get_bloch_wavefunctions (L := null_library) HYDROGEN_NICKEL_SYSTEM
        scenario_config = Ok w
      /\ List.length (wavefunctions w) = 5%nat.
Proof.
  assert (H1 : (0 < shape scenario_config)%Z) by (simpl; lia).
  assert (H2 : (0 < resolution scenario_config)%Z) by (simpl; lia).
  assert (H3 : (0 < n_bands scenario_config
                <= resolution scenario_config)%Z) by (simpl; lia).
  repeat split; try (simpl; lia).
  destruct (get_bloch_wavefunctions_spec null_library HYDROGEN_NICKEL_SYSTEM
              scenario_config H1 H2 H3)
    as [w [Hw [_ [Hlen _]]]].
  exists w. split; [exact Hw | exact Hlen].
Defined.

(** C5 as stated fails: twenty-one bands over a unit cell of twenty
    basis states is a configuration positive in every entry, and the
    band solver raises on it whatever the numerical library. *)
Lemma get_bloch_wavefunctions_counterexample :
  (0 < shape (mkPeriodicSystemConfig 5 20 21 155))%Z
  /\ (0 < resolution (mkPeriodicSystemConfig 5 20 21 155))%Z
  /\ (0 < n_bands (mkPeriodicSystemConfig 5 20 21 155))%Z
  /\ (forall L : SurfaceLibrary,
        get_bloch_wavefunctions HYDROGEN_NICKEL_SYSTEM
          (mkPeriodicSystemConfig 5 20 21 155) = Raise ValueError)
  /\ ~ (forall (L : SurfaceLibrary) (system : PeriodicSystem)
               (config : PeriodicSystemConfig),
          (0 < shape config)%Z ->
          (0 < resolution config)%Z ->
          (0 < n_bands config)%Z ->
          exists w : BlochWavefunctionListWithEigenvaluesList,
            get_bloch_wavefunctions system config = Ok w
            /\ Forall (fun kept => List.length kept = Z.to_nat (n_bands config))
                      (wavefunctions w)).
Proof.
  assert (Hraise : forall L : SurfaceLibrary,
             get_bloch_wavefunctions HYDROGEN_NICKEL_SYSTEM
               (mkPeriodicSystemConfig 5 20 21 155) = Raise ValueError).
  { intros L. apply get_bloch_wavefunctions_too_many_bands; simpl; lia. }
  repeat split; try (simpl; lia); [exact Hraise|].
  intros Hclaim.
  destruct (Hclaim null_library HYDROGEN_NICKEL_SYSTEM
              (mkPeriodicSystemConfig 5 20 21 155))
    as [w [Hw _]]; try (simpl; lia).
  rewrite Hraise in Hw. discriminate.
Qed.

Lemma mapM_Forall2 {A B : Type} (f : A -> result B) (l : list A) (l' : list B) :
  mapM f l = Ok l' -> Forall2 (fun a b => f a = Ok b) l l'.
Proof.
  revert l'. induction l as [|a l IH]; intros l' H; cbn [mapM] in H.
  - injection H as <-. constructor.
  - destruct (f a) as [b|e] eqn:Hb; cbn [bind] in H; [|discriminate].
    destruct (mapM f l) as [bs|e] eqn:Hbs; cbn [bind] in H; [|discriminate].
    injection H as <-. constructor; [exact Hb | apply IH; reflexivity].
Qed.

(** C10: whatever [get_bloch_wavefunctions] returns was obtained, Bloch
    fraction by Bloch fraction, from the eigenpairs of the Hamiltonian
    of a single unit cell, [_get_full_hamiltonian system (1,)
    config.resolution] at that fraction, a matrix over
    [config.resolution] basis states with as many eigenpairs;
    [config.shape] enters through the list basis alone, which fixes the
    number of Bloch fractions: with another shape the same generator is
    run over another list basis. *)
Theorem get_bloch_wavefunctions_single_cell :
  forall (L : SurfaceLibrary) (system : PeriodicSystem)
         (config : PeriodicSystemConfig)
         (w : BlochWavefunctionListWithEigenvaluesList),
    get_bloch_wavefunctions system config = Ok w ->
    list_basis w = fundamental_stacked_basis_from_shape (shape config)
    /\ List.length (wavefunctions w) = Z.to_nat (shape config)
    /\ Forall2
         (fun bloch_fraction kept =>
            tuple_n
              (basis (_get_full_hamiltonian system 1 (resolution config)
                        (Some bloch_fraction)))
            = resolution config
            /\ List.length
                 (calculate_eigenvectors_hermitian
                    (_get_full_hamiltonian system 1 (resolution config)
                       (Some bloch_fraction)))
               = Z.to_nat (resolution config)
            /\ mapM (subset_by_index
                       (calculate_eigenvectors_hermitian
                          (_get_full_hamiltonian system 1 (resolution config)
                             (Some bloch_fraction))))
                    (Axis.indices (save_bands w))
               = Ok kept)
         (get_wavepacket_sample_fractions (list_basis w))
         (wavefunctions w)
    /\ forall shape' : Z,
        get_bloch_wavefunctions system
          (mkPeriodicSystemConfig shape' (resolution config) (n_bands config)
             (temperature config))
        = generate_wavepacket
            (fun bloch_fraction =>
               _get_full_hamiltonian system 1 (resolution config)
                 (Some bloch_fraction))
            (save_bands w)
            (fundamental_stacked_basis_from_shape shape').
Proof.
  intros L system config w H.
  unfold get_bloch_wavefunctions, generate_wavepacket in H.
  match type of H with
  | context [mapM ?f ?l] => destruct (mapM f l) as [samples|e] eqn:Hsamples
  end; cbn [bind] in H; [|discriminate].
  injection H as <-. cbn [list_basis wavefunctions save_bands].
  apply mapM_Forall2 in Hsamples.
  split; [reflexivity|]. split.
  { rewrite <- (Forall2_length Hsamples).
    apply get_wavepacket_sample_fractions_length. }
  split.
  { eapply Forall2_impl; [|exact Hsamples].
    intros bloch_fraction kept Hkept. cbv beta zeta in Hkept.
    split; [|split].
    - rewrite _get_full_hamiltonian_basis. unfold tuple_n. cbn [axis0 Axis.n]. lia.
    - apply hamiltonian_generator_eigenstates.
    - exact Hkept. }
  intros shape'. reflexivity.
Qed.

Lemma get_bloch_wavefunctions_single_cell_witness :
  get_bloch_wavefunctions (L := null_library) HYDROGEN_NICKEL_SYSTEM scenario_config
  = Ok (mkBlochWavefunctionList
          (EvenlySpacedBasis 1 1 0)
          (fundamental_stacked_basis_from_shape 5)
          (repeat [mkEigenstate 0 (unit_vector 20 0)] 5))
  /\ List.length (repeat [mkEigenstate 0 (unit_vector 20 0)] 5) = 5%nat
  /\ Forall2
       (fun bloch_fraction kept =>
          mapM (subset_by_index
                  (@calculate_eigenvectors_hermitian null_library
                     (_get_full_hamiltonian (L := null_library)
                        HYDROGEN_NICKEL_SYSTEM 1 20 (Some bloch_fraction))))
               [0%Z]
          = Ok kept)
       (@get_wavepacket_sample_fractions null_library
          (fundamental_stacked_basis_from_shape 5))
       (repeat [mkEigenstate 0 (unit_vector 20 0)] 5).
Proof.
  assert (H : get_bloch_wavefunctions (L := null_library) HYDROGEN_NICKEL_SYSTEM
                scenario_config
              = Ok (mkBlochWavefunctionList
                      (EvenlySpacedBasis 1 1 0)
                      (fundamental_stacked_basis_from_shape 5)
                      (repeat [mkEigenstate 0 (unit_vector 20 0)] 5)))
    by reflexivity.
  pose proof (get_bloch_wavefunctions_single_cell null_library
                HYDROGEN_NICKEL_SYSTEM scenario_config _ H)
    as [_ [Hlen [Hall _]]].
  split; [exact H|]. split; [exact Hlen|].
  eapply Forall2_impl; [|exact Hall].
  intros bloch_fraction kept [_ [_ Hkept]]. exact Hkept.
Defined.

(** ** State sampler *)

Lemma setitem_at_end (pre : list C) (x v : C) (rest : list C) :
  setitem (pre ++ x :: rest) (List.length pre) v = Ok (pre ++ v :: rest).
Proof.
  induction pre as [|p pre IH]; simpl.
  - reflexivity.
  - rewrite IH. reflexivity.
Qed.

Lemma setitem_past_end (a : list C) (i : nat) (v : C) :
  (List.length a <= i)%nat -> setitem a i v = Raise IndexError.
Proof.
  revert i. induction a as [|x a IH]; intros i Hi; simpl.
  - reflexivity.
  - destruct i as [|i]; simpl in Hi; [lia|].
    rewrite IH by lia. reflexivity.
Qed.

(** A loop that stores [f i] at every index [i] of [k .. k+n-1] fills
    that stretch of the array and leaves the rest alone. *)
Lemma for_each_setitem_fill (f : nat -> C) (n : nat) :
  forall (pre : list C) (m : nat),
    for_each (seq (List.length pre) n)
             (fun i a => setitem a i (f i))
             (pre ++ repeat Czero (n + m))
    = Ok (pre ++ map f (seq (List.length pre) n) ++ repeat Czero m).
Proof.
  induction n as [|n IH]; intros pre m.
  - reflexivity.
  - cbn [seq for_each Nat.add repeat map].
    rewrite setitem_at_end. cbn [bind].
    replace (pre ++ f (List.length pre) :: repeat Czero (n + m))
      with ((pre ++ [f (List.length pre)]) ++ repeat Czero (n + m))
      by (rewrite <- app_assoc; reflexivity).
    replace (S (List.length pre)) with (List.length (pre ++ [f (List.length pre)]))
      by (rewrite length_app; simpl; lia).
    rewrite IH. rewrite <- app_assoc. reflexivity.
Qed.

Lemma for_each_app {S : Type} (l1 l2 : list nat)
      (body : nat -> S -> result S) (s : S) :
  for_each (l1 ++ l2) body s = (s' <- for_each l1 body s ;; for_each l2 body s').
Proof.
  revert s. induction l1 as [|i l1 IH]; intros s; cbn [app for_each].
  - reflexivity.
  - destruct (body i s) as [s'|e]; cbn [bind]; [apply IH | reflexivity].
Qed.

(** The same loop over more indices than the array has raises. *)
Lemma for_each_setitem_overflow (f : nat -> C) (size n : nat) :
  (size < n)%nat ->
  for_each (seq 0 n) (fun i a => setitem a i (f i)) (repeat Czero size)
  = Raise IndexError.
Proof.
  intros Hn.
  replace n with (size + S (n - size - 1))%nat by lia.
  rewrite seq_app, for_each_app.
  pose proof (for_each_setitem_fill f size [] 0) as Hfill.
  cbn [List.length app] in Hfill.
  rewrite Nat.add_0_r, app_nil_r in Hfill. rewrite Hfill.
  cbn [bind seq Nat.add for_each].
  rewrite setitem_past_end; [reflexivity|].
  rewrite length_map, length_seq. lia.
Qed.

Lemma np_sum_app (l1 l2 : list R) : np_sum (l1 ++ l2) = np_sum l1 + np_sum l2.
Proof.
  unfold np_sum. induction l1 as [|x l1 IH]; simpl; [lra | rewrite IH; lra].
Qed.

Lemma np_sum_repeat (x : R) (n : nat) : np_sum (repeat x n) = INR n * x.
Proof.
  unfold np_sum. induction n as [|n IH].
  - simpl. lra.
  - rewrite S_INR. simpl. rewrite IH. lra.
Qed.

Lemma calculate_normalization_zeros (b : TupleBasis) (n : nat) :
  calculate_normalization (mkDict b (repeat Czero n)) = 0.
Proof.
  unfold calculate_normalization. cbn [data].
  rewrite map_repeat, np_sum_repeat. unfold Cabs2, Czero, RtoC. simpl. lra.
Qed.

Section StepState.

Context {L : SurfaceLibrary}.

Lemma get_step_state_unfold system config fraction :
  get_step_state system config fraction
  = (let N := (resolution config * shape config)%Z in
     let basis :=
       mkTupleBasis
         (FundamentalPositionBasis
            (sqrt 3 * lattice_constant system / 2 * IZR (shape config)) N) in
     let n_non_zero :=
       match fraction with
       | None => 1%Z
       | Some fraction => py_int (fraction * IZR N)
       end in
     data_ <- zeros N ;;
     data_ <-
       for_each (range n_non_zero)
                (fun i a => setitem a i (RtoC (1 / sqrt (IZR n_non_zero))))
                data_ ;;
     Ok (mkDict basis data_)).
Proof.
  unfold get_step_state.
  rewrite get_extended_interpolated_potential_basis. reflexivity.
Qed.

(** More sites to fill than the basis has: the loop leaves the array. *)
Lemma get_step_state_overflow system config fraction :
  (0 <= resolution config * shape config
   < match fraction with
     | None => 1
     | Some fraction => py_int (fraction * IZR (resolution config * shape config))
     end)%Z ->
  get_step_state system config fraction = Raise IndexError.
Proof.
  intros Hn. rewrite get_step_state_unfold. cbv zeta.
  unfold zeros. destruct (Z.ltb_spec (resolution config * shape config) 0); [lia|].
  cbn [bind]. unfold range.
  rewrite for_each_setitem_overflow by lia. reflexivity.
Qed.

End StepState.

(** C6 (amended): when the number [n] of sites to fill, [1] for no
    fraction and [int(fraction * N)] otherwise, satisfies [1 <= n <= N]
    for the size [N = resolution * shape] of the position basis of the
    extended cell, [get_step_state] returns a state over that basis whose
    first [n] coefficients are [1 / sqrt n], whose other [N - n] are
    zero, and whose squared magnitudes sum to 1. *)
Theorem get_step_state_spec :
  forall (L : SurfaceLibrary) (system : PeriodicSystem)
         (config : PeriodicSystemConfig) (fraction : option R) (n : Z),
    match fraction with
    | None => 1%Z
    | Some fraction => py_int (fraction * IZR (resolution config * shape config))
    end = n ->
    (1 <= n <= resolution config * shape config)%Z ->
    exists state : StateVector,
      get_step_state system config fraction = Ok state
      /\ tuple_n (basis state) = (resolution config * shape config)%Z
      /\ data state
         = repeat (RtoC (1 / sqrt (IZR n))) (Z.to_nat n)
           ++ repeat Czero (Z.to_nat (resolution config * shape config - n))
      /\ calculate_normalization state = 1.
Proof.
  intros L system config fraction n Hn Hrange.
  rewrite get_step_state_unfold. cbv zeta. rewrite Hn.
  unfold zeros. destruct (Z.ltb_spec (resolution config * shape config) 0); [lia|].
  cbn [bind]. unfold range.
  replace (Z.to_nat (resolution config * shape config))
    with (Z.to_nat n + Z.to_nat (resolution config * shape config - n))%nat by lia.
  pose proof (for_each_setitem_fill
                (fun _ => RtoC (1 / sqrt (IZR n))) (Z.to_nat n) []
                (Z.to_nat (resolution config * shape config - n))) as Hfill.
  cbn [List.length app] in Hfill. rewrite Hfill. cbn [bind].
  assert (Hconst : map (fun _ : nat => RtoC (1 / sqrt (IZR n))) (seq 0 (Z.to_nat n))
                   = repeat (RtoC (1 / sqrt (IZR n))) (Z.to_nat n)).
  { rewrite map_const, length_seq. reflexivity. }
  rewrite Hconst.
  eexists. split; [reflexivity|]. cbn [basis data]. repeat split.
  unfold calculate_normalization. cbn [data].
  rewrite map_app, np_sum_app, !map_repeat, !np_sum_repeat.
  rewrite INR_IZR_INZ, Z2Nat.id by lia.
  assert (Hpos : 0 < IZR n) by (apply IZR_lt; lia).
  unfold Cabs2, Czero, RtoC. cbn [fst snd].
  assert (Hsqrt : sqrt (IZR n) * sqrt (IZR n) = IZR n) by (apply sqrt_sqrt; lra).
  assert (Hs : sqrt (IZR n) <> 0).
  { intros H0. rewrite H0 in Hsqrt. lra. }
  replace (1 / sqrt (IZR n) * (1 / sqrt (IZR n)))
    with (1 / (sqrt (IZR n) * sqrt (IZR n))) by (field; exact Hs).
  rewrite Hsqrt. field. lra.
Qed.

Lemma get_step_state_spec_witness :
  match Some 0.5 with
  | None => 1%Z
  | Some fraction =>
      py_int (fraction * IZR (resolution scenario_config * shape scenario_config))
  end = 50%Z
  /\ (1 <= 50 <= resolution scenario_config * shape scenario_config)%Z
  /\ exists state : StateVector,
      get_step_state (L := null_library) HYDROGEN_NICKEL_SYSTEM
        scenario_config (Some 0.5) = Ok state
      /\ data state = repeat (RtoC (1 / sqrt 50)) 50 ++ repeat Czero 50
      /\ calculate_normalization state = 1.
Proof.
  assert (Hn : match Some 0.5 with
               | None => 1%Z
               | Some fraction =>
                   py_int (fraction
                           * IZR (resolution scenario_config * shape scenario_config))
               end = 50%Z).
  { cbn [resolution shape scenario_config]. change (20 * 5)%Z with 100%Z.
    apply py_int_between; [lia | lra | lra]. }
  assert (H : (1 <= 50 <= resolution scenario_config * shape scenario_config)%Z)
    by (simpl; lia).
  split; [exact Hn|]. split; [exact H|].
  destruct (get_step_state_spec null_library HYDROGEN_NICKEL_SYSTEM
              scenario_config (Some 0.5) 50 Hn H)
    as [state [Hstate [_ [Hdata Hnorm]]]].
  exists state. split; [exact Hstate|]. split; [exact Hdata | exact Hnorm].
Defined.

(** C6 as stated fails: the fraction 1.5 is positive and asks for
    [int(1.5 * 100) = 150 >= 1] sites of a basis of 100 states; the
    store at index 100 is out of bounds and [get_step_state] raises. *)
Lemma get_step_state_counterexample :
  0 < 1.5
  /\ py_int (1.5 * IZR (resolution scenario_config * shape scenario_config))
     = 150%Z
  /\ (forall L : SurfaceLibrary,
        get_step_state HYDROGEN_NICKEL_SYSTEM scenario_config (Some 1.5)
        = Raise IndexError)
  /\ ~ (forall (L : SurfaceLibrary) (system : PeriodicSystem)
               (config : PeriodicSystemConfig) (fraction : R),
          0 < fraction ->
          (1 <= py_int (fraction * IZR (resolution config * shape config)))%Z ->
          exists state : StateVector,
            get_step_state system config (Some fraction) = Ok state
            /\ calculate_normalization state = 1).
Proof.
  assert (Hint : py_int (1.5 * IZR (resolution scenario_config * shape scenario_config))
                 = 150%Z).
  { cbn [resolution shape scenario_config]. change (20 * 5)%Z with 100%Z.
    apply py_int_between; [lia | lra | lra]. }
  assert (Hraise : forall L : SurfaceLibrary,
             get_step_state HYDROGEN_NICKEL_SYSTEM scenario_config (Some 1.5)
             = Raise IndexError).
  { intros L. apply get_step_state_overflow. rewrite Hint. simpl. lia. }
  split; [lra|]. split; [exact Hint|]. split; [exact Hraise|].
  intros Hclaim.
  destruct (Hclaim null_library HYDROGEN_NICKEL_SYSTEM scenario_config 1.5)
    as [state [Hstate _]]; [lra | rewrite Hint; lia |].
  rewrite Hraise in Hstate. discriminate.
Qed.

(** C9: when [0 <= fraction] and [int(fraction * N) = 0] the loop of
    [get_step_state] is empty: no division is made, nothing is raised,
    and the state returned has all [N] coefficients zero, hence norm 0
    and not 1. *)
Theorem get_step_state_zero_sites :
  forall (L : SurfaceLibrary) (system : PeriodicSystem)
         (config : PeriodicSystemConfig) (fraction : R),
    (0 < shape config)%Z ->
    (0 < resolution config)%Z ->
    0 <= fraction ->
    py_int (fraction * IZR (resolution config * shape config)) = 0%Z ->
    exists state : StateVector,
      get_step_state system config (Some fraction) = Ok state
      /\ tuple_n (basis state) = (resolution config * shape config)%Z
      /\ data state
         = repeat Czero (Z.to_nat (resolution config * shape config))
      /\ calculate_normalization state = 0
      /\ calculate_normalization state <> 1.
Proof.
  intros L system config fraction Hshape Hres Hfrac Hn.
  rewrite get_step_state_unfold. cbv zeta. rewrite Hn.
  unfold zeros. destruct (Z.ltb_spec (resolution config * shape config) 0); [lia|].
  cbn [bind range Z.to_nat seq for_each].
  eexists. split; [reflexivity|]. cbn [basis data].
  rewrite calculate_normalization_zeros.
  repeat split. lra.
Qed.

Lemma get_step_state_zero_sites_witness :
  (0 < shape scenario_config)%Z
  /\ (0 < resolution scenario_config)%Z
  /\ 0 <= 0.001
  /\ py_int (0.001 * IZR (resolution scenario_config
                          * shape scenario_config)) = 0%Z
  /\ exists state : StateVector,
      get_step_state (L := null_library) HYDROGEN_NICKEL_SYSTEM
        scenario_config (Some 0.001) = Ok state
      /\ calculate_normalization state = 0.
Proof.
  assert (H1 : (0 < shape scenario_config)%Z) by (simpl; lia).
  assert (H2 : (0 < resolution scenario_config)%Z) by (simpl; lia).
  assert (H3 : 0 <= 0.001) by lra.
  assert (H4 : py_int (0.001 * IZR (resolution scenario_config
                                    * shape scenario_config)) = 0%Z).
  { cbn [resolution shape scenario_config]. change (20 * 5)%Z with 100%Z.
    apply py_int_between; [lia | lra | lra]. }
  repeat split; try assumption.
  destruct (get_step_state_zero_sites null_library HYDROGEN_NICKEL_SYSTEM
              scenario_config 0.001 H1 H2 H3 H4)
    as [state [Hstate [_ [_ [Hnorm _]]]]].
  exists state. split; [exact Hstate | exact Hnorm].
Defined.

Lemma Cexp_RtoC (x : R) : Cexp (RtoC x) = RtoC (exp x).
Proof.
  unfold Cexp, RtoC. cbn [fst snd]. rewrite cos_0, sin_0. f_equal; lra.
Qed.

Lemma np_sum_scale (A : Type) (f : A -> R) (c : R) (l : list A) :
  np_sum (map (fun a => f a * c) l) = np_sum (map f l) * c.
Proof.
  unfold np_sum. induction l as [|a l IH]; simpl; [lra | rewrite IH; lra].
Qed.

Lemma np_sum_squares_pos (A : Type) (f : A -> R) (a : A) (l : list A) :
  (forall x, 0 < f x) -> 0 < np_sum (map (fun x => f x * f x) (a :: l)).
Proof.
  intros Hf.
  assert (Hnn : forall l', 0 <= np_sum (map (fun x => f x * f x) l')).
  { unfold np_sum. induction l' as [|x l' IH]; simpl; [lra|].
    pose proof (Hf x). nra. }
  unfold np_sum in *. simpl. pose proof (Hf a). pose proof (Hnn l). nra.
Qed.

Section GaussianState.

Context {L : SurfaceLibrary}.

Lemma get_gaussian_state_unfold system config fraction :
  get_gaussian_state system config fraction
  = (let size := (resolution config * shape config)%Z in
     let basis :=
       mkTupleBasis
         (FundamentalPositionBasis
            (sqrt 3 * lattice_constant system / 2 * IZR (shape config)) size) in
     let width := IZR size * fraction in
     data_ <- zeros size ;;
     data_ <-
       for_each (range size)
                (fun i a =>
                   setitem a i
                     (RtoC (- Rsqr (INR i - IZR size / 2) / (2 * width * width))))
                data_ ;;
     let initial_state : StateVector := mkDict basis (map Cexp data_) in
     Ok (mkDict basis
           (map (fun z =>
                   Cdiv_real z (sqrt (calculate_normalization initial_state)))
                (data initial_state)))).
Proof.
  unfold get_gaussian_state.
  rewrite get_extended_interpolated_potential_basis. reflexivity.
Qed.

End GaussianState.



(** Every exponent of the envelope is bounded below by
    [-1 / (8 fraction^2)]. *)
Lemma gaussian_exponent_bound (N : Z) (fraction : R) (i : nat) :
  (0 < N)%Z -> (i < Z.to_nat N)%nat -> 0.02 <= fraction ->
  - 312.5 <= - (INR i - IZR N / 2) ^ 2 / (2 * (fraction * IZR N) ^ 2).
Proof.
  intros HN Hi Hfrac.
  assert (HNR : 1 <= IZR N) by (apply IZR_le; lia).
  assert (Hi0 : 0 <= INR i) by apply pos_INR.
  assert (Hi1 : INR i <= IZR N).
  { rewrite <- (Z2Nat.id N) by lia. rewrite <- INR_IZR_INZ. apply le_INR. lia. }
  assert (Hw : 0.02 * IZR N <= fraction * IZR N) by nra.
  assert (Hden : 0 < 2 * (fraction * IZR N) ^ 2) by nra.
  apply Rmult_le_reg_r with (2 * (fraction * IZR N) ^ 2); [exact Hden|].
  unfold Rdiv. rewrite Rmult_assoc, Rinv_l by lra. nra.
Qed.


(** ** Gaussian fit *)

Lemma get_gaussian_fit_converged (S : Scipy) (values : ValueList) (n : nat)
      (t0 dt a b c00 c01 c10 c11 : R) :
  times (basis values) = evenly_spaced_times (2 + n) t0 dt ->
  curve_fit gauss (map INR (seq 0 (2 + n))) (get_measured_data_abs (data values))
  = Ok ((a, b), ((c00, c01), (c10, c11))) ->
  get_gaussian_fit values
  = Ok (a, sqrt c00, b * (t0 + dt), sqrt c11 * (t0 + dt)).
Proof.
  intros Htimes Hfit.
  unfold get_gaussian_fit. rewrite Htimes.
  unfold evenly_spaced_times at 1. rewrite length_map, length_seq.
  unfold range. rewrite Nat2Z.id. rewrite Hfit. cbn [bind fst snd].
  unfold evenly_spaced_times, getitem. cbn [Nat.add seq map nth_error].
  replace (t0 + INR 1 * dt) with (t0 + dt) by (simpl; lra).
  reflexivity.
Qed.

(** With a grid that starts at 0 the second time is the step, and the
    decay time and its error are scaled by the step. *)
Lemma get_gaussian_fit_zero_offset (S : Scipy) (values : ValueList) (n : nat)
      (dt a b c00 c01 c10 c11 : R) :
  times (basis values) = evenly_spaced_times (2 + n) 0 dt ->
  curve_fit gauss (map INR (seq 0 (2 + n))) (get_measured_data_abs (data values))
  = Ok ((a, b), ((c00, c01), (c10, c11))) ->
  get_gaussian_fit values = Ok (a, sqrt c00, b * dt, sqrt c11 * dt).
Proof.
  intros Htimes Hfit.
  rewrite (get_gaussian_fit_converged S values n 0 dt a b c00 c01 c10 c11 Htimes Hfit).
  rewrite Rplus_0_l. reflexivity.
Qed.

(** An optimiser failure is passed on to the caller. *)
Lemma get_gaussian_fit_not_converged (S : Scipy) (values : ValueList) (e : exception) :
  curve_fit gauss
    (map INR (range (Z.of_nat (List.length (times (basis values))))))
    (get_measured_data_abs (data values))
  = Raise e ->
  get_gaussian_fit values = Raise e.
Proof.
  intros Hfit. unfold get_gaussian_fit. rewrite Hfit. reflexivity.
Qed.

(** C2: on a grid of at least two times that starts at [t0] and
    advances by [dt], a converged fit [(a, b)] is returned as
    [(a, sqrt cov00, b * (t0 + dt), sqrt cov11 * (t0 + dt))]: the decay
    time and its error are multiplied by the second time of the grid
    and not by the step; the decay time returned is [b * dt] only when
    [b = 0] or the grid starts at [t0 = 0]. *)
Theorem get_gaussian_fit_scales_by_second_time :
  forall (S : Scipy) (values : ValueList) (n : nat)
         (t0 dt a b c00 c01 c10 c11 : R),
    times (basis values) = evenly_spaced_times (2 + n) t0 dt ->
    curve_fit gauss (map INR (seq 0 (2 + n))) (get_measured_data_abs (data values))
    = Ok ((a, b), ((c00, c01), (c10, c11))) ->
    get_gaussian_fit values
    = Ok (a, sqrt c00, b * (t0 + dt), sqrt c11 * (t0 + dt))
    /\ (b * (t0 + dt) = b * dt <-> b = 0 \/ t0 = 0).
Proof.
  intros S values n t0 dt a b c00 c01 c10 c11 Htimes Hfit.
  split.
  - exact (get_gaussian_fit_converged S values n t0 dt a b c00 c01 c10 c11 Htimes Hfit).
  - split.
    + intros Heq. assert (Hz : b * t0 = 0) by lra.
      apply Rmult_integral in Hz. exact Hz.
    + intros [-> | ->]; lra.
Qed.

(** The synthetic series of the specification, on a grid whose first
    time is [1e-13] instead of 0, with an optimiser that recovers
    [(2, 10)]: the decay time returned is [10 * 2e-13]. *)
Lemma get_gaussian_fit_offset_grid :
  times (basis (synthetic_series 50 1e-13 1e-13 2 10))
  = evenly_spaced_times (2 + 48) 1e-13 1e-13
  /\ curve_fit (Scipy := fixed_fit 2 10) gauss (map INR (seq 0 (2 + 48)))
       (get_measured_data_abs (data (synthetic_series 50 1e-13 1e-13 2 10)))
     = Ok ((2, 10), ((0, 0), (0, 0)))
  /\ get_gaussian_fit (S := fixed_fit 2 10) (synthetic_series 50 1e-13 1e-13 2 10)
     = Ok (2, sqrt 0, 10 * (1e-13 + 1e-13), sqrt 0 * (1e-13 + 1e-13))
  /\ 10 * (1e-13 + 1e-13) <> 10 * 1e-13.
Proof.
  split; [reflexivity|]. split; [reflexivity|]. split.
  - apply (get_gaussian_fit_scales_by_second_time
             (fixed_fit 2 10) (synthetic_series 50 1e-13 1e-13 2 10)
             48 1e-13 1e-13 2 10 0 0 0 0); reflexivity.
  - lra.
Defined.

(** * Further properties of [system.py] *)

(** ** Loops and arrays *)

Lemma for_each_invariant {S : Type} (Inv : nat -> S -> Prop)
      (body : nat -> S -> result S) (n : nat) :
  forall (a : nat) (s : S),
    Inv a s ->
    (forall i s0, (a <= i < a + n)%nat -> Inv i s0 ->
                  exists s1, body i s0 = Ok s1 /\ Inv (Datatypes.S i) s1) ->
    exists s', for_each (seq a n) body s = Ok s' /\ Inv (a + n)%nat s'.
Proof.
  induction n as [|n IH]; intros a s Hinv Hstep.
  - exists s. rewrite Nat.add_0_r. split; [reflexivity | exact Hinv].
  - cbn [seq for_each].
    destruct (Hstep a s ltac:(lia) Hinv) as [s1 [Hb Hs1]].
    rewrite Hb. cbn [bind].
    destruct (IH (Datatypes.S a) s1 Hs1) as [s' [Hrun Hs']].
    { intros i s0 Hi. apply Hstep. lia. }
    exists s'. split; [exact Hrun|].
    replace (a + Datatypes.S n)%nat with (Datatypes.S a + n)%nat by lia. exact Hs'.
Qed.

Lemma repeat_map_seq {A : Type} (x : A) (n : nat) :
  forall s, repeat x n = map (fun _ => x) (seq s n).
Proof.
  induction n as [|n IH]; intros s; simpl; [reflexivity | f_equal; apply IH].
Qed.

Lemma setitem_map_seq (h : nat -> C) (v : C) (n : nat) :
  forall s c,
    (c < n)%nat ->
    setitem (map h (seq s n)) c v
    = Ok (map (fun c' => if Nat.eqb c' (s + c) then v else h c') (seq s n)).
Proof.
  induction n as [|n IH]; intros s c Hc; [lia|].
  cbn [seq map]. destruct c as [|c]; cbn [setitem].
  - rewrite Nat.add_0_r, Nat.eqb_refl. do 2 f_equal.
    apply map_ext_in. intros c' Hin. apply in_seq in Hin.
    destruct (Nat.eqb_spec c' s); [lia | reflexivity].
  - rewrite (IH (Datatypes.S s) c) by lia. cbn [bind].
    destruct (Nat.eqb_spec s (s + Datatypes.S c)); [lia|].
    do 2 f_equal. apply map_ext. intros c'.
    replace (Datatypes.S s + c)%nat with (s + Datatypes.S c)%nat by lia.
    reflexivity.
Qed.

Lemma setitem2_rows (g : nat -> nat -> C) (v : C) (n m : nat) :
  forall s i j,
    (i < m)%nat -> (j < n)%nat ->
    setitem2 (map (fun r => map (g r) (seq 0 n)) (seq s m)) i j v
    = Ok (map (fun r => map (upd g (s + i) j v r) (seq 0 n)) (seq s m)).
Proof.
  induction m as [|m IH]; intros s i j Hi Hj; [lia|].
  cbn [seq map]. destruct i as [|i]; cbn [setitem2].
  - rewrite setitem_map_seq by exact Hj. cbn [bind]. rewrite Nat.add_0_r.
    do 2 f_equal.
    + apply map_ext. intros c. unfold upd. rewrite Nat.eqb_refl. reflexivity.
    + apply map_ext_in. intros r Hin. apply in_seq in Hin.
      apply map_ext. intros c. unfold upd.
      destruct (Nat.eqb_spec r s); [lia | reflexivity].
  - rewrite (IH (Datatypes.S s) i j) by lia. cbn [bind].
    replace (Datatypes.S s + i)%nat with (s + Datatypes.S i)%nat by lia.
    do 2 f_equal.
    apply map_ext. intros c. unfold upd.
    destruct (Nat.eqb_spec s (s + Datatypes.S i)); [lia | reflexivity].
Qed.

Lemma setitem2_mat_of (g : nat -> nat -> C) (v : C) (n i j : nat) :
  (i < n)%nat -> (j < n)%nat ->
  setitem2 (mat_of n g) i j v = Ok (mat_of n (upd g i j v)).
Proof.
  intros Hi Hj. unfold mat_of. rewrite setitem2_rows by assumption. reflexivity.
Qed.

Lemma getitem_map_seq {A : Type} (h : nat -> A) (n c : nat) :
  (c < n)%nat -> getitem (map h (seq 0 n)) c = Ok (h c).
Proof.
  intros Hc. unfold getitem.
  rewrite nth_error_map, nth_error_seq.
  destruct (Nat.ltb_spec c n); [reflexivity | lia].
Qed.

Lemma getitem2_mat_of (g : nat -> nat -> C) (n i j : nat) :
  (i < n)%nat -> (j < n)%nat -> getitem2 (mat_of n g) i j = Ok (g i j).
Proof.
  intros Hi Hj. unfold getitem2, mat_of.
  rewrite getitem_map_seq by exact Hi. cbn [bind].
  apply getitem_map_seq. exact Hj.
Qed.

Lemma mat_of_ext (n : nat) (g g' : nat -> nat -> C) :
  (forall r c, (r < n)%nat -> (c < n)%nat -> g r c = g' r c) ->
  mat_of n g = mat_of n g'.
Proof.
  intros H. unfold mat_of. apply map_ext_in. intros r Hr. apply in_seq in Hr.
  apply map_ext_in. intros c Hc. apply in_seq in Hc. apply H; lia.
Qed.

Lemma zeros2_mat_of (n : Z) :
  (0 <= n)%Z -> zeros2 n = Ok (mat_of (Z.to_nat n) (fun _ _ => Czero)).
Proof.
  intros Hn. unfold zeros2. destruct (Z.ltb_spec n 0); [lia|].
  unfold mat_of. rewrite (repeat_map_seq _ _ 0). f_equal.
  apply map_ext. intros r. apply repeat_map_seq.
Qed.

Lemma py_int_half (z : Z) :
  (0 <= z)%Z -> py_int (IZR z / 2) = (z / 2)%Z.
Proof.
  intros Hz.
  pose proof (Z.div_mod z 2 ltac:(lia)) as Hdm.
  pose proof (Z.mod_pos_bound z 2 ltac:(lia)) as Hmod.
  assert (HR : IZR z = 2 * IZR (z / 2) + IZR (z mod 2)).
  { rewrite Hdm at 1. rewrite plus_IZR, mult_IZR. reflexivity. }
  assert (H0 : 0 <= IZR (z mod 2)) by (apply IZR_le; lia).
  assert (H1 : IZR (z mod 2) <= 1) by (apply IZR_le; lia).
  apply py_int_between.
  - apply Z.div_pos; lia.
  - lra.
  - lra.
Qed.

(** ** Caldeira-Leggett operator *)

Lemma ndarray_getitem_in_range (a : ndarray) (z : Z) :
  (0 <= z < Z.of_nat (List.length (as_complex128 a)))%Z ->
  ndarray_getitem a z = Ok (nth (Z.to_nat z) (as_complex128 a) Czero).
Proof.
  intros Hz. unfold ndarray_getitem. cbv zeta.
  destruct (Z.ltb_spec z 0); [lia|].
  destruct (Z.ltb_spec z 0); [lia|].
  destruct (Z.leb_spec (Z.of_nat (List.length (as_complex128 a))) z); [lia|].
  cbn [orb]. unfold getitem.
  destruct (nth_error (as_complex128 a) (Z.to_nat z)) as [c|] eqn:Hnth.
  - rewrite (nth_error_nth _ _ Czero Hnth). reflexivity.
  - apply nth_error_None in Hnth. lia.
Qed.

Lemma cl_exponent_ok (system : PeriodicSystem) (config : PeriodicSystemConfig)
      (data_ : ndarray) (size_position : Z) (i j : nat) :
  (j <= i < List.length (as_complex128 data_))%nat ->
  cl_exponent system config data_ size_position i j
  = Ok (cl_value system config (as_complex128 data_) size_position i j).
Proof.
  intros Hij. unfold cl_exponent. cbv zeta.
  rewrite !py_int_half by lia.
  assert (H0 : ((Z.of_nat i + Z.of_nat j) / 2 = Z.of_nat ((i + j) / 2)%nat)%Z).
  { rewrite Nat2Z.inj_div, Nat2Z.inj_add. reflexivity. }
  assert (H1 : ((Z.of_nat i + Z.of_nat j + 1) / 2 = Z.of_nat ((i + j + 1) / 2)%nat)%Z).
  { rewrite Nat2Z.inj_div, !Nat2Z.inj_add. reflexivity. }
  assert (Hb0 : ((i + j) / 2 <= i)%nat).
  { apply Nat.Div0.div_le_upper_bound. lia. }
  assert (Hb1 : ((i + j + 1) / 2 <= i)%nat).
  { apply Nat.lt_succ_r. apply Nat.Div0.div_lt_upper_bound. lia. }
  rewrite H0, H1.
  rewrite !ndarray_getitem_in_range by lia. cbn [bind].
  rewrite !Nat2Z.id. reflexivity.
Qed.

Section ClOperator.

Context {L : SurfaceLibrary}.

Lemma convert_potential_to_position_basis_basis system config :
  basis (convert_potential_to_position_basis
           (get_extended_interpolated_potential
              system (shape config) (resolution config)))
  = mkTupleBasis
      (FundamentalPositionBasis
         (sqrt 3 * lattice_constant system / 2 * IZR (shape config))
         (resolution config * shape config)).
Proof.
  unfold convert_potential_to_position_basis.
  rewrite convert_potential_to_basis_basis.
  rewrite get_extended_interpolated_potential_basis. reflexivity.
Qed.

(** The two nested loops store, at every [(r, c)], the value computed
    for the pair with the larger index first. *)
Lemma cl_loops (system : PeriodicSystem) (config : PeriodicSystemConfig)
      (data_ : ndarray) (size_position : Z) (n : nat) :
  n = List.length (as_complex128 data_) ->
  for_each (seq 0 n)
    (fun i matrix =>
       for_each (range (Z.of_nat i + 1))
         (fun j matrix =>
            v <- cl_exponent system config data_ size_position i j ;;
            matrix <- setitem2 matrix i j v ;;
            v' <- getitem2 matrix i j ;;
            setitem2 matrix j i v')
         matrix)
    (mat_of n (fun _ _ => Czero))
  = Ok (mat_of n
          (fun r c =>
             cl_value system config (as_complex128 data_) size_position
                      (Nat.max r c) (Nat.min r c))).
Proof.
  intros Hn.
  set (E := fun r c =>
              cl_value system config (as_complex128 data_) size_position
                       (Nat.max r c) (Nat.min r c)).
  pose (Inv := fun (i : nat) (m : list (list C)) =>
                 exists g, m = mat_of n g
                           /\ forall r c, (r < n)%nat -> (c < n)%nat ->
                                          (Nat.max r c < i)%nat -> g r c = E r c).
  destruct (for_each_invariant Inv
              (fun i matrix =>
                 for_each (range (Z.of_nat i + 1))
                   (fun j matrix =>
                      v <- cl_exponent system config data_ size_position i j ;;
                      matrix <- setitem2 matrix i j v ;;
                      v' <- getitem2 matrix i j ;;
                      setitem2 matrix j i v')
                   matrix)
              n 0 (mat_of n (fun _ _ => Czero)))
    as [m [Hrun [g [Hm Hg]]]].
  - exists (fun _ _ => Czero). split; [reflexivity|]. intros; lia.
  - intros i m0 Hi [g [-> Hg]].
    pose (InvJ := fun (j : nat) (m : list (list C)) =>
                    exists g', m = mat_of n g'
                               /\ forall r c, (r < n)%nat -> (c < n)%nat ->
                                   (Nat.max r c < i
                                    \/ (Nat.max r c = i /\ Nat.min r c < j))%nat ->
                                   g' r c = E r c).
    unfold range. replace (Z.to_nat (Z.of_nat i + 1)) with (i + 1)%nat by lia.
    destruct (for_each_invariant InvJ
                (fun j matrix =>
                   v <- cl_exponent system config data_ size_position i j ;;
                   matrix <- setitem2 matrix i j v ;;
                   v' <- getitem2 matrix i j ;;
                   setitem2 matrix j i v')
                (i + 1) 0 (mat_of n g))
      as [m1 [Hrun1 [g1 [Hm1 Hg1]]]].
    + exists g. split; [reflexivity|].
      intros r c Hr Hc [Hlt | [_ Hmin]]; [apply Hg; assumption | lia].
    + intros j m1 Hj [g1 [-> Hg1]].
      rewrite cl_exponent_ok by lia. cbn [bind].
      rewrite setitem2_mat_of by lia. cbn [bind].
      rewrite getitem2_mat_of by lia. cbn [bind].
      rewrite setitem2_mat_of by lia.
      eexists. split; [reflexivity|].
      exists (upd (upd g1 i j
                     (cl_value system config (as_complex128 data_) size_position i j))
                  j i
                  (upd g1 i j
                     (cl_value system config (as_complex128 data_) size_position i j)
                     i j)).
      split; [reflexivity|].
      intros r c Hr Hc Hdone. unfold upd. rewrite !Nat.eqb_refl. cbn [andb].
      repeat match goal with
             | |- context [Nat.eqb ?a ?b] => destruct (Nat.eqb_spec a b)
             end;
        cbn [andb];
        try (apply Hg1; [assumption | assumption | lia]);
        unfold E; f_equal; lia.
    + exists m1. split; [exact Hrun1|].
      exists g1. split; [exact Hm1|].
      intros r c Hr Hc Hmax. apply Hg1; try assumption. lia.
  - rewrite Hrun. f_equal. rewrite Hm. apply mat_of_ext.
    intros r c Hr Hc. apply Hg; try assumption. lia.
Qed.

Lemma map_map_mat_of (n : nat) (g : nat -> nat -> C) (f : C -> C) :
  map (map f) (mat_of n g) = mat_of n (fun r c => f (g r c)).
Proof.
  unfold mat_of. rewrite map_map. apply map_ext. intros r. apply map_map.
Qed.

Lemma get_cl_operator_ok (system : PeriodicSystem) (config : PeriodicSystemConfig) :
  let converted :=
    convert_potential_to_position_basis
      (get_extended_interpolated_potential
         system (shape config) (resolution config)) in
  let size_position := (resolution config * shape config)%Z in
  (0 <= size_position)%Z ->
  List.length (as_complex128 (data converted)) = Z.to_nat size_position ->
  get_cl_operator system config
  = Ok (mkDict (basis converted)
          (mat_of (Z.to_nat size_position)
             (fun r c =>
                Cexp (cl_value system config (as_complex128 (data converted))
                               size_position (Nat.max r c) (Nat.min r c))))).
Proof.
  intros converted size_position Hsize Hlen.
  assert (Hn : tuple_n (basis converted) = size_position).
  { unfold converted. rewrite convert_potential_to_position_basis_basis.
    reflexivity. }
  unfold get_cl_operator. cbv zeta. fold converted. rewrite Hn.
  rewrite zeros2_mat_of by exact Hsize. cbn [bind]. unfold range at 1.
  rewrite cl_loops by (symmetry; exact Hlen). cbn [bind].
  rewrite map_map_mat_of. reflexivity.
Qed.

End ClOperator.

Lemma periodic_displacement_square (n a : Z) :
  (0 <= a < n)%Z ->
  Z.square ((a + n / 2) mod n - n / 2) = Z.square (Z.min a (n - a)).
Proof.
  intros Ha.
  pose proof (Z.div_mod n 2 ltac:(lia)) as Hdm.
  pose proof (Z.mod_pos_bound n 2 ltac:(lia)) as Hmod.
  destruct (Z.lt_ge_cases (a + n / 2) n) as [Hsmall | Hbig].
  - rewrite Z.mod_small by lia.
    replace (a + n / 2 - n / 2)%Z with a by lia.
    rewrite Z.min_l by lia. reflexivity.
  - assert (Hm : ((a + n / 2) mod n = a + n / 2 - n)%Z).
    { symmetry. apply (Z.mod_unique _ _ 1); lia. }
    rewrite Hm. rewrite Z.min_r by lia.
    rewrite !Z.square_spec. ring.
Qed.

(** X1: when the converted potential has one value per site,
    [get_cl_operator] returns an operator over the position basis of the
    extended cell whose matrix is square, [N] by [N] for
    [N = resolution * shape], and symmetric: the entries at [(r, c)] and
    [(c, r)] are the same value. *)
Theorem get_cl_operator_symmetric :
  forall (L : SurfaceLibrary) (system : PeriodicSystem)
         (config : PeriodicSystemConfig),
    (0 < shape config)%Z ->
    (0 < resolution config)%Z ->
    List.length (as_complex128 (data (converted_potential system config)))
    = Z.to_nat (resolution config * shape config) ->
    exists op : Operator,
      get_cl_operator system config = Ok op
      /\ tuple_n (basis op) = (resolution config * shape config)%Z
      /\ List.length (data op) = Z.to_nat (resolution config * shape config)
      /\ Forall (fun row =>
                   List.length row = Z.to_nat (resolution config * shape config))
                (data op)
      /\ forall r c : nat,
          (r < Z.to_nat (resolution config * shape config))%nat ->
          (c < Z.to_nat (resolution config * shape config))%nat ->
          exists v : C,
            getitem2 (data op) r c = Ok v /\ getitem2 (data op) c r = Ok v.
Proof.
  intros L system config Hshape Hres Hlen.
  pose proof (get_cl_operator_ok system config ltac:(lia) Hlen) as Hop.
  cbv zeta in Hop. eexists. split; [exact Hop|]. cbn [basis data].
  split.
  { rewrite convert_potential_to_position_basis_basis. reflexivity. }
  split.
  { unfold mat_of. rewrite length_map, length_seq. reflexivity. }
  split.
  { unfold mat_of. apply Forall_forall. intros row Hin.
    apply in_map_iff in Hin. destruct Hin as [r [<- _]].
    rewrite length_map, length_seq. reflexivity. }
  intros r c Hr Hc. eexists.
  rewrite !getitem2_mat_of by assumption.
  split; [reflexivity|].
  rewrite (Nat.max_comm c r), (Nat.min_comm c r). reflexivity.
Qed.

Lemma three_point_data_length :
  List.length
    (as_complex128
       (data (converted_potential (L := null_library)
                HYDROGEN_NICKEL_SYSTEM three_point_config)))
  = Z.to_nat (resolution three_point_config * shape three_point_config).
Proof. reflexivity. Qed.

Lemma get_cl_operator_symmetric_witness :
  (0 < shape three_point_config)%Z
  /\ (0 < resolution three_point_config)%Z
  /\ List.length
       (as_complex128
          (data (converted_potential (L := null_library)
                   HYDROGEN_NICKEL_SYSTEM three_point_config)))
     = Z.to_nat (resolution three_point_config * shape three_point_config)
  /\ exists op : Operator,
      get_cl_operator (L := null_library) HYDROGEN_NICKEL_SYSTEM
        three_point_config = Ok op
      /\ exists v : C,
          getitem2 (data op) 2 0 = Ok v /\ getitem2 (data op) 0 2 = Ok v.
Proof.
  assert (H1 : (0 < shape three_point_config)%Z) by (simpl; lia).
  assert (H2 : (0 < resolution three_point_config)%Z) by (simpl; lia).
  split; [exact H1|]. split; [exact H2|]. split; [exact three_point_data_length|].
  destruct (get_cl_operator_symmetric null_library HYDROGEN_NICKEL_SYSTEM
              three_point_config H1 H2 three_point_data_length)
    as [op [Hop [_ [_ [_ Hsym]]]]].
  exists op. split; [exact Hop|].
  apply Hsym; simpl; lia.
Defined.

(** X2: every entry of the matrix of [get_cl_operator] is the
    exponential of a potential term, the mean of the potential at the
    two sites nearest to the midpoint of [r] and [c] divided by
    [-k T], minus a kinetic term in the square of the distance between
    [r] and [c] on the ring of [N] sites: the operator is periodic over
    the extended cell. *)
Theorem get_cl_operator_entry :
  forall (L : SurfaceLibrary) (system : PeriodicSystem)
         (config : PeriodicSystemConfig) (r c : nat),
    (0 < shape config)%Z ->
    (0 < resolution config)%Z ->
    List.length (as_complex128 (data (converted_potential system config)))
    = Z.to_nat (resolution config * shape config) ->
    (r < Z.to_nat (resolution config * shape config))%nat ->
    (c < Z.to_nat (resolution config * shape config))%nat ->
    exists op : Operator,
      get_cl_operator system config = Ok op
      /\ getitem2 (data op) r c
         = Ok (Cexp
                 (Csub_real
                    (Cdiv_real
                       (Copp
                          (Cadd
                             (nth ((r + c) / 2)
                                  (as_complex128
                                     (data (converted_potential system config)))
                                  Czero)
                             (nth ((r + c + 1) / 2)
                                  (as_complex128
                                     (data (converted_potential system config)))
                                  Czero)))
                       (2 * k * temperature config))
                    (mass system * k * temperature config
                     * Rsqr (lattice_constant system * sqrt 3
                             / (2 * IZR (resolution config)))
                     * IZR (Z.square
                              (periodic_distance
                                 (resolution config * shape config) r c))
                     / (2 * Rsqr hbar)))).
Proof.
  intros L system config r c Hshape Hres Hlen Hr Hc.
  pose proof (get_cl_operator_ok system config ltac:(lia) Hlen) as Hop.
  cbv zeta in Hop. eexists. split; [exact Hop|]. cbn [data].
  rewrite getitem2_mat_of by assumption.
  unfold cl_value, converted_potential.
  replace (Nat.max r c + Nat.min r c)%nat with (r + c)%nat by lia.
  replace (Z.of_nat (Nat.max r c) - Z.of_nat (Nat.min r c))%Z
    with (Z.abs (Z.of_nat r - Z.of_nat c)) by lia.
  rewrite periodic_displacement_square by lia.
  reflexivity.
Qed.

Lemma get_cl_operator_entry_witness :
  (0 < shape three_point_config)%Z
  /\ (0 < resolution three_point_config)%Z
  /\ List.length
       (as_complex128
          (data (converted_potential (L := null_library)
                   HYDROGEN_NICKEL_SYSTEM three_point_config)))
     = Z.to_nat (resolution three_point_config * shape three_point_config)
  /\ (2 < Z.to_nat (resolution three_point_config * shape three_point_config))%nat
  /\ (0 < Z.to_nat (resolution three_point_config * shape three_point_config))%nat
  /\ periodic_distance
       (resolution three_point_config * shape three_point_config) 2 0 = 1%Z
  /\ exists op v : _,
      get_cl_operator (L := null_library) HYDROGEN_NICKEL_SYSTEM
        three_point_config = Ok op
      /\ getitem2 (data op) 2 0 = Ok v.
Proof.
  assert (H1 : (0 < shape three_point_config)%Z) by (simpl; lia).
  assert (H2 : (0 < resolution three_point_config)%Z) by (simpl; lia).
  assert (H3 : (2 < Z.to_nat (resolution three_point_config
                              * shape three_point_config))%nat) by (simpl; lia).
  assert (H4 : (0 < Z.to_nat (resolution three_point_config
                              * shape three_point_config))%nat) by (simpl; lia).
  split; [exact H1|]. split; [exact H2|]. split; [exact three_point_data_length|].
  split; [exact H3|]. split; [exact H4|]. split; [reflexivity|].
  destruct (get_cl_operator_entry null_library HYDROGEN_NICKEL_SYSTEM
              three_point_config 2 0 H1 H2 three_point_data_length H3 H4)
    as [op [Hop Hentry]].
  exists op. eexists. split; [exact Hop | exact Hentry].
Defined.

(** X3: at a positive temperature the diagonal entry of site [i] is the
    Boltzmann weight [exp(-V_i / (k T))] of the potential value [V_i] at
    that site: the kinetic term vanishes on the diagonal. *)
Theorem get_cl_operator_diagonal :
  forall (L : SurfaceLibrary) (system : PeriodicSystem)
         (config : PeriodicSystemConfig) (i : nat),
    (0 < shape config)%Z ->
    (0 < resolution config)%Z ->
    0 < temperature config ->
    List.length (as_complex128 (data (converted_potential system config)))
    = Z.to_nat (resolution config * shape config) ->
    (i < Z.to_nat (resolution config * shape config))%nat ->
    exists op : Operator,
      get_cl_operator system config = Ok op
      /\ getitem2 (data op) i i
         = Ok (Cexp
                 (Cdiv_real
                    (Copp (nth i (as_complex128
                                    (data (converted_potential system config)))
                               Czero))
                    (k * temperature config))).
Proof.
  intros L system config i Hshape Hres Htemp Hlen Hi.
  pose proof (get_cl_operator_ok system config ltac:(lia) Hlen) as Hop.
  cbv zeta in Hop. eexists. split; [exact Hop|]. cbn [data].
  rewrite getitem2_mat_of by assumption.
  unfold cl_value, converted_potential.
  rewrite Nat.max_id, Nat.min_id.
  replace ((i + i) / 2)%nat with i.
  2:{ replace (i + i)%nat with (i * 2)%nat by lia.
      rewrite Nat.div_mul by lia. reflexivity. }
  replace ((i + i + 1) / 2)%nat with i.
  2:{ apply (Nat.div_unique _ _ _ 1); lia. }
  replace (Z.of_nat i - Z.of_nat i + resolution config * shape config / 2)%Z
    with (resolution config * shape config / 2)%Z by lia.
  rewrite Z.mod_small.
  2:{ split; [apply Z.div_pos; lia | apply Z.div_lt; lia]. }
  rewrite Z.sub_diag. cbn [Z.square].
  do 2 f_equal.
  assert (Hk : 0 < k) by (unfold k; lra).
  set (V := nth i _ Czero).
  match goal with
  | |- context [?A * IZR 0 / ?B] =>
      replace (A * IZR 0 / B) with 0 by (unfold Rdiv; ring)
  end.
  unfold Csub_real, Cdiv_real, Copp, Cadd. cbn [fst snd].
  f_equal; field; split; lra.
Qed.

Lemma get_cl_operator_diagonal_witness :
  (0 < shape three_point_config)%Z
  /\ (0 < resolution three_point_config)%Z
  /\ 0 < temperature three_point_config
  /\ List.length
       (as_complex128
          (data (converted_potential (L := null_library)
                   HYDROGEN_NICKEL_SYSTEM three_point_config)))
     = Z.to_nat (resolution three_point_config * shape three_point_config)
  /\ (1 < Z.to_nat (resolution three_point_config * shape three_point_config))%nat
  /\ exists op v : _,
      get_cl_operator (L := null_library) HYDROGEN_NICKEL_SYSTEM
        three_point_config = Ok op
      /\ getitem2 (data op) 1 1 = Ok v.
Proof.
  assert (H1 : (0 < shape three_point_config)%Z) by (simpl; lia).
  assert (H2 : (0 < resolution three_point_config)%Z) by (simpl; lia).
  assert (H3 : 0 < temperature three_point_config) by (simpl; lra).
  assert (H4 : (1 < Z.to_nat (resolution three_point_config
                              * shape three_point_config))%nat) by (simpl; lia).
  split; [exact H1|]. split; [exact H2|]. split; [exact H3|].
  split; [exact three_point_data_length|]. split; [exact H4|].
  destruct (get_cl_operator_diagonal null_library HYDROGEN_NICKEL_SYSTEM
              three_point_config 1 H1 H2 H3 three_point_data_length H4)
    as [op [Hop Hentry]].
  exists op. eexists. split; [exact Hop | exact Hentry].
Defined.

(** ** Potential builder, continued *)

(** X4: the potential of the extended cell lives on an evenly spaced
    plane-wave axis of [resolution] states with step [shape], a
    fundamental grid of [resolution * shape] points and a cell [shape]
    times as long as the unit cell; its coefficients are those of the
    interpolated potential multiplied by [sqrt shape], whatever the
    resolution. *)
Theorem get_extended_interpolated_potential_scale :
  forall (L : SurfaceLibrary) (system : PeriodicSystem) (shape resolution : Z),
    resolution <> 0%Z ->
    basis (get_extended_interpolated_potential system shape resolution)
    = mkTupleBasis
        (EvenlySpacedTransformedPositionBasis
           (Axis.delta_x (axis0 (basis (get_potential system))) * IZR shape)
           resolution shape 0)
    /\ tuple_fundamental_n
         (basis (get_extended_interpolated_potential system shape resolution))
       = (resolution * shape)%Z
    /\ data (get_extended_interpolated_potential system shape resolution)
       = mul_scalar (data (get_interpolated_potential system resolution))
                    (sqrt (IZR shape)).
Proof.
  intros L system shape resolution Hres.
  split; [apply get_extended_interpolated_potential_basis|].
  split; [rewrite get_extended_interpolated_potential_basis; reflexivity|].
  unfold get_extended_interpolated_potential. cbn [data basis].
  rewrite get_interpolated_potential_basis.
  unfold tuple_fundamental_n. cbn [axis0 Axis.fundamental_n Axis.n].
  do 2 f_equal. rewrite mult_IZR. field. apply not_0_IZR. exact Hres.
Qed.

Lemma get_extended_interpolated_potential_scale_witness :
  20%Z <> 0%Z
  /\ data (get_extended_interpolated_potential (L := null_library)
             HYDROGEN_NICKEL_SYSTEM 5 20)
     = mul_scalar (data (get_interpolated_potential (L := null_library)
                           HYDROGEN_NICKEL_SYSTEM 20))
                  (sqrt (IZR 5)).
Proof.
  assert (H : 20%Z <> 0%Z) by lia.
  split; [exact H|].
  exact (proj2 (proj2 (get_extended_interpolated_potential_scale
                         null_library HYDROGEN_NICKEL_SYSTEM 5 20 H))).
Defined.

Lemma as_complex128_mul_scalar_one (a : ndarray) :
  as_complex128 (mul_scalar a 1) = as_complex128 a.
Proof.
  destruct a as [l | l | l]; cbn [mul_scalar as_complex128].
  - rewrite !map_map. apply map_ext. intros z. unfold RtoC. f_equal. lra.
  - rewrite !map_map. apply map_ext. intros x. unfold RtoC. f_equal. lra.
  - rewrite <- (map_id l) at 2. apply map_ext. intros [x y].
    unfold Cscale. cbn [fst snd]. f_equal; lra.
Qed.

(** X5: over a single unit cell the extension changes no value: the
    coefficients of [get_extended_interpolated_potential system (1,)
    resolution] are those of [get_interpolated_potential system
    resolution], on a fundamental grid of [resolution] points. *)
Theorem get_extended_interpolated_potential_single_cell :
  forall (L : SurfaceLibrary) (system : PeriodicSystem) (resolution : Z),
    resolution <> 0%Z ->
    as_complex128 (data (get_extended_interpolated_potential system 1 resolution))
    = as_complex128 (data (get_interpolated_potential system resolution))
    /\ tuple_fundamental_n
         (basis (get_extended_interpolated_potential system 1 resolution))
       = tuple_fundamental_n (basis (get_interpolated_potential system resolution)).
Proof.
  intros L system resolution Hres. split.
  - unfold get_extended_interpolated_potential. cbn [data basis].
    rewrite get_interpolated_potential_basis.
    unfold tuple_fundamental_n. cbn [axis0 Axis.fundamental_n Axis.n].
    replace (sqrt (IZR (resolution * 1) / IZR resolution)) with 1.
    + apply as_complex128_mul_scalar_one.
    + rewrite Z.mul_1_r. unfold Rdiv. rewrite Rinv_r by (apply not_0_IZR; exact Hres).
      symmetry. apply sqrt_1.
  - rewrite get_extended_interpolated_potential_basis,
      get_interpolated_potential_basis.
    unfold tuple_fundamental_n. cbn [axis0 Axis.fundamental_n]. lia.
Qed.

Lemma get_extended_interpolated_potential_single_cell_witness :
  20%Z <> 0%Z
  /\ as_complex128
       (data (get_extended_interpolated_potential (L := null_library)
                HYDROGEN_NICKEL_SYSTEM 1 20))
     = as_complex128
         (data (get_interpolated_potential (L := null_library)
                  HYDROGEN_NICKEL_SYSTEM 20)).
Proof.
  assert (H : 20%Z <> 0%Z) by lia.
  split; [exact H|].
  exact (proj1 (get_extended_interpolated_potential_single_cell
                  null_library HYDROGEN_NICKEL_SYSTEM 20 H)).
Defined.

(** X6: the coefficients of [get_potential] sum to zero, the two side
    coefficients are equal, and all three are linear in the barrier
    energy: scaling the barrier by [c] scales every coefficient by [c]
    (a barrier of zero gives the zero potential). *)
Theorem get_potential_linear :
  forall (system : PeriodicSystem) (c : R),
    np_sum (as_float64 (data (get_potential system))) = 0
    /\ nth 1 (as_float64 (data (get_potential system))) 0
       = nth 2 (as_float64 (data (get_potential system))) 0
    /\ as_float64
         (data (get_potential
                  (mkPeriodicSystem (id system) (c * barrier_energy system)
                     (lattice_constant system) (mass system))))
       = map (fun x => c * x) (as_float64 (data (get_potential system)))
    /\ basis (get_potential
                (mkPeriodicSystem (id system) (c * barrier_energy system)
                   (lattice_constant system) (mass system)))
       = basis (get_potential system).
Proof.
  intros system c. unfold get_potential.
  cbn [data basis mul_scalar scalar_mul as_float64 map nth np_sum fold_right
       barrier_energy lattice_constant].
  repeat split.
  - lra.
  - repeat (f_equal; try lra).
Qed.

(** ** State sampler, continued *)

Lemma Int_part_ge (x : R) (z : Z) : IZR z <= x -> (z <= Int_part x)%Z.
Proof.
  intros Hz. destruct (base_Int_part x) as [_ Hgt].
  assert (Hlt : IZR (z - 1) < IZR (Int_part x)) by (rewrite minus_IZR; lra).
  apply lt_IZR in Hlt. lia.
Qed.

Lemma py_int_ge (x : R) (z : Z) : 0 <= x -> IZR z <= x -> (z <= py_int x)%Z.
Proof.
  intros Hx Hz. unfold py_int.
  destruct (Rle_dec 0 x) as [_ | Hneg]; [|lra].
  apply Int_part_ge. exact Hz.
Qed.

Lemma py_int_nonpos (x : R) : x <= 0 -> (py_int x <= 0)%Z.
Proof.
  intros Hx. unfold py_int.
  destruct (Rle_dec 0 x) as [Hpos | Hneg].
  - assert (x = 0) by lra. subst x.
    rewrite (Int_part_between 0 0); [lia | lra | lra].
  - pose proof (Int_part_ge (- x) 0 ltac:(lra)). lia.
Qed.

Lemma setitem_length (a : list C) (i : nat) (v : C) (a' : list C) :
  setitem a i v = Ok a' -> List.length a' = List.length a.
Proof.
  revert i a'. induction a as [|x a IH]; intros i a' H; simpl in H.
  - discriminate.
  - destruct i as [|i].
    + injection H as <-. reflexivity.
    + destruct (setitem a i v) as [a''|e] eqn:Hs; simpl in H; [|discriminate].
      injection H as <-. simpl. f_equal. exact (IH i a'' Hs).
Qed.

Lemma for_each_preserves {S : Type} (P : S -> Prop)
      (body : nat -> S -> result S) (l : list nat) :
  (forall i s s', body i s = Ok s' -> P s -> P s') ->
  forall s s', for_each l body s = Ok s' -> P s -> P s'.
Proof.
  intros Hbody. induction l as [|i l IH]; intros s s' H Hs; cbn [for_each] in H.
  - injection H as <-. exact Hs.
  - destruct (body i s) as [s1|e] eqn:Hb; cbn [bind] in H; [|discriminate].
    exact (IH s1 s' H (Hbody i s s1 Hb Hs)).
Qed.

Lemma for_each_ext {S : Type} (body body' : nat -> S -> result S) (l : list nat) :
  (forall i s, body i s = body' i s) ->
  forall s, for_each l body s = for_each l body' s.
Proof.
  intros Hext. induction l as [|i l IH]; intros s; cbn [for_each].
  - reflexivity.
  - rewrite Hext. destruct (body' i s); cbn [bind]; [apply IH | reflexivity].
Qed.

(** X7: a fraction that asks for more sites than the basis has is not
    clamped: whenever [N + 1 <= fraction * N <= 1e15], for
    [N = resolution * shape], [get_step_state] raises [IndexError].
    Up to [1e15] the product and its integer part are exact integers of
    binary64 and of [int64]. *)
Theorem get_step_state_out_of_bounds :
  forall (L : SurfaceLibrary) (system : PeriodicSystem)
         (config : PeriodicSystemConfig) (fraction : R),
    (0 < shape config)%Z ->
    (0 < resolution config)%Z ->
    IZR (resolution config * shape config) + 1
    <= fraction * IZR (resolution config * shape config) ->
    fraction * IZR (resolution config * shape config) <= 1e15 ->
    get_step_state system config (Some fraction) = Raise IndexError.
Proof.
  intros L system config fraction Hshape Hres Hfrac Hmax.
  apply get_step_state_overflow.
  assert (HN : 0 < IZR (resolution config * shape config)) by (apply IZR_lt; lia).
  pose proof (py_int_ge (fraction * IZR (resolution config * shape config))
                (resolution config * shape config + 1)
                ltac:(lra) ltac:(rewrite plus_IZR; lra)).
  lia.
Qed.

Lemma get_step_state_out_of_bounds_witness :
  (0 < shape scenario_config)%Z
  /\ (0 < resolution scenario_config)%Z
  /\ IZR (resolution scenario_config * shape scenario_config) + 1
     <= 2 * IZR (resolution scenario_config * shape scenario_config)
  /\ 2 * IZR (resolution scenario_config * shape scenario_config) <= 1e15
  /\ get_step_state (L := null_library) HYDROGEN_NICKEL_SYSTEM
       scenario_config (Some 2) = Raise IndexError.
Proof.
  assert (H1 : (0 < shape scenario_config)%Z) by (simpl; lia).
  assert (H2 : (0 < resolution scenario_config)%Z) by (simpl; lia).
  assert (H3 : IZR (resolution scenario_config * shape scenario_config) + 1
               <= 2 * IZR (resolution scenario_config * shape scenario_config)).
  { cbn [resolution shape scenario_config]. change (20 * 5)%Z with 100%Z. lra. }
  assert (H4 : 2 * IZR (resolution scenario_config * shape scenario_config)
               <= 1e15).
  { cbn [resolution shape scenario_config]. change (20 * 5)%Z with 100%Z. lra. }
  split; [exact H1|]. split; [exact H2|]. split; [exact H3|]. split; [exact H4|].
  exact (get_step_state_out_of_bounds null_library HYDROGEN_NICKEL_SYSTEM
           scenario_config 2 H1 H2 H3 H4).
Defined.

(** X8: a negative fraction is not rejected: for a basis of
    [N <= 1e15] sites and [-1e15 <= fraction * N < 0] the integer
    [int(fraction * N)] is at most zero, the fill loop is empty, and
    [get_step_state] returns the vector of [N] zeros, of norm 0.  Within
    these bounds the product is a finite binary64 number. *)
Theorem get_step_state_negative_fraction :
  forall (L : SurfaceLibrary) (system : PeriodicSystem)
         (config : PeriodicSystemConfig) (fraction : R),
    (0 < shape config)%Z ->
    (0 < resolution config)%Z ->
    IZR (resolution config * shape config) <= 1e15 ->
    fraction < 0 ->
    - 1e15 <= fraction * IZR (resolution config * shape config) ->
    exists state : StateVector,
      get_step_state system config (Some fraction) = Ok state
      /\ data state = repeat Czero (Z.to_nat (resolution config * shape config))
      /\ calculate_normalization state = 0.
Proof.
  intros L system config fraction Hshape Hres Hsize Hfrac Hmin.
  rewrite get_step_state_unfold. cbv zeta.
  unfold zeros. destruct (Z.ltb_spec (resolution config * shape config) 0); [lia|].
  cbn [bind].
  assert (HN : 0 < IZR (resolution config * shape config)) by (apply IZR_lt; lia).
  pose proof (py_int_nonpos (fraction * IZR (resolution config * shape config))
                ltac:(nra)) as Hn.
  unfold range.
  replace (Z.to_nat (py_int (fraction * IZR (resolution config * shape config))))
    with 0%nat by lia.
  cbn [seq for_each bind].
  eexists. split; [reflexivity|]. cbn [data].
  split; [reflexivity | apply calculate_normalization_zeros].
Qed.

Lemma get_step_state_negative_fraction_witness :
  (0 < shape scenario_config)%Z
  /\ (0 < resolution scenario_config)%Z
  /\ IZR (resolution scenario_config * shape scenario_config) <= 1e15
  /\ -0.5 < 0
  /\ - 1e15 <= -0.5 * IZR (resolution scenario_config * shape scenario_config)
  /\ exists state : StateVector,
      get_step_state (L := null_library) HYDROGEN_NICKEL_SYSTEM
        scenario_config (Some (-0.5)) = Ok state
      /\ calculate_normalization state = 0.
Proof.
  assert (H1 : (0 < shape scenario_config)%Z) by (simpl; lia).
  assert (H2 : (0 < resolution scenario_config)%Z) by (simpl; lia).
  assert (H3 : IZR (resolution scenario_config * shape scenario_config) <= 1e15).
  { cbn [resolution shape scenario_config]. change (20 * 5)%Z with 100%Z. lra. }
  assert (H4 : -0.5 < 0) by lra.
  assert (H5 : - 1e15
               <= -0.5 * IZR (resolution scenario_config * shape scenario_config)).
  { cbn [resolution shape scenario_config]. change (20 * 5)%Z with 100%Z. lra. }
  split; [exact H1|]. split; [exact H2|]. split; [exact H3|]. split; [exact H4|].
  split; [exact H5|].
  destruct (get_step_state_negative_fraction null_library HYDROGEN_NICKEL_SYSTEM
              scenario_config (-0.5) H1 H2 H3 H4 H5)
    as [state [Hstate [_ Hnorm]]].
  exists state. split; [exact Hstate | exact Hnorm].
Defined.

Section Samplers.

Context {L : SurfaceLibrary}.

(** The state [get_gaussian_state] returns, site by site. *)
Lemma get_gaussian_state_value system config fraction :
  (0 <= resolution config * shape config)%Z ->
  get_gaussian_state system config fraction
  = Ok (mkDict
          (mkTupleBasis
             (FundamentalPositionBasis
                (sqrt 3 * lattice_constant system / 2 * IZR (shape config))
                (resolution config * shape config)))
          (map (fun i =>
                  Cdiv_real
                    (RtoC (exp (gaussian_exponent
                                  (resolution config * shape config) fraction i)))
                    (sqrt (np_sum
                             (map (fun i =>
                                     exp (gaussian_exponent
                                            (resolution config * shape config)
                                            fraction i)
                                     * exp (gaussian_exponent
                                              (resolution config * shape config)
                                              fraction i))
                                  (seq 0 (Z.to_nat
                                            (resolution config * shape config)))))))
               (seq 0 (Z.to_nat (resolution config * shape config))))).
Proof.
  intros HN. rewrite get_gaussian_state_unfold. cbv zeta.
  unfold zeros. destruct (Z.ltb_spec (resolution config * shape config) 0); [lia|].
  cbn [bind]. unfold range.
  pose proof (for_each_setitem_fill
                (fun i => RtoC (gaussian_exponent
                                  (resolution config * shape config) fraction i))
                (Z.to_nat (resolution config * shape config)) [] 0) as Hfill.
  cbn [List.length app] in Hfill.
  rewrite Nat.add_0_r, app_nil_r in Hfill.
  unfold gaussian_exponent in Hfill at 1. rewrite Hfill. cbn [bind data].
  rewrite !map_map. unfold calculate_normalization. cbn [data]. rewrite !map_map.
  do 2 f_equal.
  assert (Hsum : map (fun x => Cabs2 (Cexp (RtoC (gaussian_exponent
                                (resolution config * shape config) fraction x))))
                     (seq 0 (Z.to_nat (resolution config * shape config)))
                 = map (fun i =>
                          exp (gaussian_exponent
                                 (resolution config * shape config) fraction i)
                          * exp (gaussian_exponent
                                   (resolution config * shape config) fraction i))
                       (seq 0 (Z.to_nat (resolution config * shape config)))).
  { apply map_ext. intros i. rewrite Cexp_RtoC.
    unfold Cabs2, RtoC. cbn [fst snd]. lra. }
  rewrite Hsum. apply map_ext. intros i. rewrite Cexp_RtoC. reflexivity.
Qed.

End Samplers.

Lemma Cdiv_real_RtoC (x r : R) : Cdiv_real (RtoC x) r = RtoC (x / r).
Proof.
  unfold Cdiv_real, RtoC. cbn [fst snd]. f_equal. unfold Rdiv. ring.
Qed.

Lemma gaussian_exponent_mirror (size : Z) (fraction : R) (i : nat) :
  (0 <= size)%Z ->
  (i <= Z.to_nat size)%nat ->
  gaussian_exponent size fraction (Z.to_nat size - i)
  = gaussian_exponent size fraction i.
Proof.
  intros Hsize Hi. unfold gaussian_exponent.
  rewrite minus_INR by exact Hi.
  rewrite (INR_IZR_INZ (Z.to_nat size)), Z2Nat.id by lia.
  replace (IZR size - INR i - IZR size / 2) with (- (INR i - IZR size / 2)) by field.
  rewrite <- Rsqr_neg. reflexivity.
Qed.

(** X9: the Gaussian state is symmetric about the centre of the
    extended cell: for [0 < i < N] the coefficients at the sites [i] and
    [N - i] are equal. *)
Theorem get_gaussian_state_symmetric :
  forall (L : SurfaceLibrary) (system : PeriodicSystem)
         (config : PeriodicSystemConfig) (fraction : R),
    (0 < shape config)%Z ->
    (0 < resolution config)%Z ->
    fraction <> 0 ->
    exists state : StateVector,
      get_gaussian_state system config fraction = Ok state
      /\ forall i : nat,
          (0 < i < Z.to_nat (resolution config * shape config))%nat ->
          exists v : C,
            getitem (data state) i = Ok v
            /\ getitem (data state)
                       (Z.to_nat (resolution config * shape config) - i) = Ok v.
Proof.
  intros L system config fraction Hshape Hres Hfrac.
  rewrite get_gaussian_state_value by lia.
  eexists. split; [reflexivity|]. cbn [data].
  intros i Hi. eexists.
  rewrite !getitem_map_seq by lia.
  split; [reflexivity|].
  rewrite gaussian_exponent_mirror by lia. reflexivity.
Qed.

Lemma get_gaussian_state_symmetric_witness :
  (0 < shape scenario_config)%Z
  /\ (0 < resolution scenario_config)%Z
  /\ 0.1 <> 0
  /\ exists state : StateVector,
      get_gaussian_state (L := null_library) HYDROGEN_NICKEL_SYSTEM
        scenario_config 0.1 = Ok state
      /\ exists v : C,
          getitem (data state) 30 = Ok v /\ getitem (data state) 70 = Ok v.
Proof.
  assert (H1 : (0 < shape scenario_config)%Z) by (simpl; lia).
  assert (H2 : (0 < resolution scenario_config)%Z) by (simpl; lia).
  assert (H3 : 0.1 <> 0) by lra.
  split; [exact H1|]. split; [exact H2|]. split; [exact H3|].
  destruct (get_gaussian_state_symmetric null_library HYDROGEN_NICKEL_SYSTEM
              scenario_config 0.1 H1 H2 H3)
    as [state [Hstate Hsym]].
  exists state. split; [exact Hstate|].
  apply (Hsym 30%nat).
  change (Z.to_nat (resolution scenario_config * shape scenario_config))
    with 100%nat.
  lia.
Defined.

Lemma centre_is_nearest (n i : nat) :
  Rsqr (INR (n / 2) - INR n / 2) <= Rsqr (INR i - INR n / 2).
Proof.
  pose proof (Nat.div_mod_eq n 2) as Hdm.
  pose proof (Nat.mod_upper_bound n 2 ltac:(lia)) as Hmod.
  assert (Hn : INR n = 2 * INR (n / 2) + INR (n mod 2)).
  { rewrite Hdm at 1. rewrite plus_INR, mult_INR. simpl. lra. }
  unfold Rsqr.
  destruct (n mod 2) as [|[|r]] eqn:Hr; [| |lia].
  - change (INR 0) with 0 in Hn.
    replace (INR (n / 2) - INR n / 2) with 0 by lra.
    rewrite Rmult_0_l. apply Rle_0_sqr.
  - change (INR 1) with 1 in Hn.
    replace (INR (n / 2) - INR n / 2) with (- (1 / 2)) by lra.
    destruct (Nat.le_gt_cases i (n / 2)) as [Hle | Hgt].
    + apply le_INR in Hle.
      assert (INR i - INR n / 2 <= - (1 / 2)) by lra. nra.
    + apply le_INR in Hgt. rewrite S_INR in Hgt.
      assert (1 / 2 <= INR i - INR n / 2) by lra. nra.
Qed.

(** X10: for a fraction of at least 0.02 every coefficient of the
    Gaussian state is a positive real number, so no site is empty, and
    none exceeds the coefficient at the site [N // 2]: the envelope
    peaks at the centre of the extended cell.  (Below 0.02 the
    exponentials of the outer sites can underflow to zero in
    binary64.) *)
Theorem get_gaussian_state_peak :
  forall (L : SurfaceLibrary) (system : PeriodicSystem)
         (config : PeriodicSystemConfig) (fraction : R),
    (0 < shape config)%Z ->
    (0 < resolution config)%Z ->
    0.02 <= fraction ->
    exists (state : StateVector) (peak : R),
      get_gaussian_state system config fraction = Ok state
      /\ getitem (data state) (Z.to_nat (resolution config * shape config) / 2)
         = Ok (RtoC peak)
      /\ forall i : nat,
          (i < Z.to_nat (resolution config * shape config))%nat ->
          exists x : R,
            getitem (data state) i = Ok (RtoC x) /\ 0 < x <= peak.
Proof.
  intros L system config fraction Hshape Hres Hfrac.
  rewrite get_gaussian_state_value by lia.
  set (N := (resolution config * shape config)%Z).
  assert (HN : (0 < N)%Z) by (unfold N; lia).
  set (S := np_sum _).
  assert (HS : 0 < S).
  { unfold S. destruct (Z.to_nat N) as [|m] eqn:Hm; [lia|].
    cbn [seq]. apply (np_sum_squares_pos nat (fun i => exp (gaussian_exponent N fraction i))).
    intros i. apply exp_pos. }
  assert (Hsqrt : 0 < sqrt S) by (apply sqrt_lt_R0; exact HS).
  eexists. eexists. split; [reflexivity|]. cbn [data].
  assert (Hhalf : (Z.to_nat N / 2 < Z.to_nat N)%nat).
  { apply Nat.div_lt; lia. }
  split.
  { rewrite getitem_map_seq by exact Hhalf. rewrite Cdiv_real_RtoC. reflexivity. }
  intros i Hi. eexists.
  rewrite getitem_map_seq by exact Hi. rewrite Cdiv_real_RtoC.
  split; [reflexivity|]. split.
  - apply Rdiv_lt_0_compat; [apply exp_pos | exact Hsqrt].
  - unfold Rdiv. apply Rmult_le_compat_r; [left; apply Rinv_0_lt_compat; exact Hsqrt|].
    assert (Hexp : gaussian_exponent N fraction i
                   <= gaussian_exponent N fraction (Z.to_nat N / 2)).
    { unfold gaussian_exponent.
      assert (HNR : 0 < IZR N) by (apply IZR_lt; lia).
      assert (Hden : 0 < 2 * (IZR N * fraction) * (IZR N * fraction)).
      { assert (IZR N * fraction <> 0) by (apply Rmult_integral_contrapositive_currified; lra).
        nra. }
      pose proof (centre_is_nearest (Z.to_nat N) i) as Hc.
      rewrite (INR_IZR_INZ (Z.to_nat N)), Z2Nat.id in Hc by lia.
      unfold Rdiv at 1 3.
      apply Rmult_le_compat_r; [left; apply Rinv_0_lt_compat; exact Hden | lra]. }
    destruct Hexp as [Hlt | Heq].
    + left. apply exp_increasing. exact Hlt.
    + rewrite Heq. right. reflexivity.
Qed.

Lemma get_gaussian_state_peak_witness :
  (0 < shape scenario_config)%Z
  /\ (0 < resolution scenario_config)%Z
  /\ 0.02 <= 0.1
  /\ exists (state : StateVector) (peak x : R),
      get_gaussian_state (L := null_library) HYDROGEN_NICKEL_SYSTEM
        scenario_config 0.1 = Ok state
      /\ getitem (data state) 50 = Ok (RtoC peak)
      /\ getitem (data state) 0 = Ok (RtoC x)
      /\ 0 < x <= peak.
Proof.
  assert (H1 : (0 < shape scenario_config)%Z) by (simpl; lia).
  assert (H2 : (0 < resolution scenario_config)%Z) by (simpl; lia).
  assert (H3 : 0.02 <= 0.1) by lra.
  split; [exact H1|]. split; [exact H2|]. split; [exact H3|].
  destruct (get_gaussian_state_peak null_library HYDROGEN_NICKEL_SYSTEM
              scenario_config 0.1 H1 H2 H3)
    as [state [peak [Hstate [Hpeak Hall]]]].
  destruct (Hall 0%nat) as [x [Hx Hbound]].
  { change (Z.to_nat (resolution scenario_config * shape scenario_config))
      with 100%nat. lia. }
  exists state, peak, x.
  split; [exact Hstate|]. split; [exact Hpeak|]. split; [exact Hx | exact Hbound].
Defined.

(** X11: only the square of the width enters the envelope, so the sign
    of the fraction is ignored: [get_gaussian_state] returns the same
    for [- fraction] and for [fraction]. *)
Theorem get_gaussian_state_sign :
  forall (L : SurfaceLibrary) (system : PeriodicSystem)
         (config : PeriodicSystemConfig) (fraction : R),
    get_gaussian_state system config (- fraction)
    = get_gaussian_state system config fraction.
Proof.
  intros L system config fraction.
  assert (Hexp : forall i,
             gaussian_exponent (resolution config * shape config) (- fraction) i
             = gaussian_exponent (resolution config * shape config) fraction i).
  { intros i. unfold gaussian_exponent. f_equal. ring. }
  destruct (Z.lt_ge_cases (resolution config * shape config) 0) as [Hneg | Hpos].
  - rewrite !get_gaussian_state_unfold. cbv zeta. unfold zeros.
    destruct (Z.ltb_spec (resolution config * shape config) 0); [reflexivity | lia].
  - rewrite !get_gaussian_state_value by lia.
    do 2 f_equal.
    rewrite (map_ext _ _ (fun i => f_equal (fun e => exp e * exp e) (Hexp i))).
    apply map_ext. intros i. rewrite Hexp. reflexivity.
Qed.

(** X12: a state returned by [get_step_state] or by
    [get_gaussian_state] is expressed in the basis of the Hamiltonian
    that [_get_full_hamiltonian] builds for the shape and resolution of
    the configuration, and has one coefficient per state of that
    basis. *)
Theorem sampled_state_basis :
  forall (L : SurfaceLibrary) (system : PeriodicSystem)
         (config : PeriodicSystemConfig) (step_fraction : option R)
         (gaussian_fraction : R) (bloch_fraction : option ndarray)
         (state : StateVector),
    get_step_state system config step_fraction = Ok state
    \/ get_gaussian_state system config gaussian_fraction = Ok state ->
    basis state
    = basis (_get_full_hamiltonian system (shape config) (resolution config)
               bloch_fraction)
    /\ Z.of_nat (List.length (data state)) = tuple_n (basis state).
Proof.
  intros L system config step_fraction gaussian_fraction bloch_fraction state H.
  rewrite _get_full_hamiltonian_basis.
  destruct H as [H | H].
  - rewrite get_step_state_unfold in H. cbv zeta in H.
    unfold zeros in H.
    destruct (Z.ltb_spec (resolution config * shape config) 0); [discriminate|].
    cbn [bind] in H.
    match type of H with
    | context [for_each ?l ?body ?s] =>
        destruct (for_each l body s) as [d|e] eqn:Hloop
    end; cbn [bind] in H; [|discriminate].
    injection H as <-. cbn [basis data]. split; [reflexivity|].
    apply (for_each_preserves
             (fun a : list C =>
                Z.of_nat (List.length a) = (resolution config * shape config)%Z))
      in Hloop.
    + exact Hloop.
    + intros i s s' Hs Hlen. rewrite (setitem_length _ _ _ _ Hs). exact Hlen.
    + rewrite repeat_length. lia.
  - destruct (Z.lt_ge_cases (resolution config * shape config) 0) as [Hneg | Hpos].
    + rewrite get_gaussian_state_unfold in H. cbv zeta in H. unfold zeros in H.
      destruct (Z.ltb_spec (resolution config * shape config) 0); [discriminate | lia].
    + rewrite get_gaussian_state_value in H by lia.
      injection H as <-. cbn [basis data]. split; [reflexivity|].
      rewrite length_map, length_seq. unfold tuple_n. cbn [axis0 Axis.n]. lia.
Qed.

Lemma sampled_state_basis_witness :
  (get_step_state (L := null_library) HYDROGEN_NICKEL_SYSTEM scenario_config None
   = Ok (mkDict
           (mkTupleBasis
              (FundamentalPositionBasis
                 (sqrt 3 * lattice_constant HYDROGEN_NICKEL_SYSTEM / 2 * IZR 5) 100))
           (RtoC (1 / sqrt (IZR 1)) :: repeat Czero 99))
   \/ get_gaussian_state (L := null_library) HYDROGEN_NICKEL_SYSTEM scenario_config 0.1
      = Ok (mkDict
              (mkTupleBasis
                 (FundamentalPositionBasis
                    (sqrt 3 * lattice_constant HYDROGEN_NICKEL_SYSTEM / 2 * IZR 5)
                    100))
              (RtoC (1 / sqrt (IZR 1)) :: repeat Czero 99)))
  /\ Z.of_nat (List.length (RtoC (1 / sqrt (IZR 1)) :: repeat Czero 99)) = 100%Z.
Proof.
  assert (H : get_step_state (L := null_library) HYDROGEN_NICKEL_SYSTEM
                scenario_config None
              = Ok (mkDict
                      (mkTupleBasis
                         (FundamentalPositionBasis
                            (sqrt 3 * lattice_constant HYDROGEN_NICKEL_SYSTEM / 2
                             * IZR 5) 100))
                      (RtoC (1 / sqrt (IZR 1)) :: repeat Czero 99))).
  { reflexivity. }
  split; [left; exact H|].
  exact (proj2 (sampled_state_basis null_library HYDROGEN_NICKEL_SYSTEM
                  scenario_config None 0.1 None _ (or_introl H))).
Defined.

(** X13: the coefficients of the sampled states are a function of the
    configuration and the fraction alone: neither the physical system
    (barrier, lattice constant, mass) nor the numerical library changes
    them. *)
Theorem sampled_state_data_independent :
  forall (L1 L2 : SurfaceLibrary) (system1 system2 : PeriodicSystem)
         (config : PeriodicSystemConfig) (step_fraction : option R)
         (gaussian_fraction : R),
    result_map data (get_step_state (L := L1) system1 config step_fraction)
    = result_map data (get_step_state (L := L2) system2 config step_fraction)
    /\ result_map data
         (get_gaussian_state (L := L1) system1 config gaussian_fraction)
       = result_map data
           (get_gaussian_state (L := L2) system2 config gaussian_fraction).
Proof.
  intros L1 L2 system1 system2 config step_fraction gaussian_fraction. split.
  - rewrite !get_step_state_unfold. cbv zeta.
    destruct (zeros (resolution config * shape config)) as [d|e]; cbn [bind];
      [|reflexivity].
    match goal with
    | |- context [for_each ?l ?body ?s] => destruct (for_each l body s)
    end; reflexivity.
  - rewrite !get_gaussian_state_unfold. cbv zeta.
    destruct (zeros (resolution config * shape config)) as [d|e]; cbn [bind];
      [|reflexivity].
    match goal with
    | |- context [for_each ?l ?body ?s] => destruct (for_each l body s)
    end; reflexivity.
Qed.

(** ** Gaussian fit, continued *)

(** X14: [get_gaussian_fit] fits the magnitudes against the sample
    index, not against the times: two value lists with the same
    magnitudes, the same number of times and the same second time give
    the same result, whatever the phases of the values and the other
    times are. *)
Theorem get_gaussian_fit_inputs :
  forall (S : Scipy) (values1 values2 : ValueList),
    get_measured_data_abs (data values1) = get_measured_data_abs (data values2) ->
    List.length (times (basis values1)) = List.length (times (basis values2)) ->
    nth_error (times (basis values1)) 1 = nth_error (times (basis values2)) 1 ->
    get_gaussian_fit values1 = get_gaussian_fit values2.
Proof.
  intros S values1 values2 Habs Hlen Hsecond.
  unfold get_gaussian_fit, getitem. rewrite Habs, Hlen, Hsecond. reflexivity.
Qed.

Lemma get_gaussian_fit_inputs_witness :
  get_measured_data_abs [RtoC 2; RtoC 1; RtoC 0.5]
  = get_measured_data_abs [RtoC 2; RtoC (-1); (0.5, 0)]
  /\ List.length [0; 1e-13; 2e-13] = List.length [5; 1e-13; 7]
  /\ nth_error [0; 1e-13; 2e-13] 1 = nth_error [5; 1e-13; 7] 1
  /\ get_gaussian_fit (S := fixed_fit 2 10)
       (mkDict (mkBasisWithTime [0; 1e-13; 2e-13]) [RtoC 2; RtoC 1; RtoC 0.5])
     = get_gaussian_fit (S := fixed_fit 2 10)
         (mkDict (mkBasisWithTime [5; 1e-13; 7]) [RtoC 2; RtoC (-1); (0.5, 0)]).
Proof.
  assert (H1 : get_measured_data_abs [RtoC 2; RtoC 1; RtoC 0.5]
               = get_measured_data_abs [RtoC 2; RtoC (-1); (0.5, 0)]).
  { unfold get_measured_data_abs, Cabs, Cabs2, RtoC. cbn [map fst snd].
    replace (-1 * -1 + 0 * 0) with (1 * 1 + 0 * 0) by lra. reflexivity. }
  split; [exact H1|]. split; [reflexivity|]. split; [reflexivity|].
  exact (get_gaussian_fit_inputs (fixed_fit 2 10)
           (mkDict (mkBasisWithTime [0; 1e-13; 2e-13]) [RtoC 2; RtoC 1; RtoC 0.5])
           (mkDict (mkBasisWithTime [5; 1e-13; 7]) [RtoC 2; RtoC (-1); (0.5, 0)])
           H1 eq_refl eq_refl).
Defined.

(** X15: a change of time unit passes through the fit: when every time
    of the grid is multiplied by [c], the amplitude and its error are
    unchanged and the decay time and its error are multiplied by [c]. *)
Theorem get_gaussian_fit_time_unit :
  forall (S : Scipy) (values : ValueList) (c a ea b eb : R),
    get_gaussian_fit values = Ok (a, ea, b, eb) ->
    get_gaussian_fit
      (mkDict (mkBasisWithTime (map (fun t => c * t) (times (basis values))))
              (data values))
    = Ok (a, ea, c * b, c * eb).
Proof.
  intros S values c a ea b eb H.
  unfold get_gaussian_fit in *. cbn [basis data times].
  rewrite length_map.
  destruct (curve_fit gauss _ _) as [[[fa fb] [[c00 c01] [c10 c11]]] | e];
    cbn [bind fst snd] in *; [|discriminate].
  unfold getitem in *. rewrite nth_error_map.
  destruct (nth_error (times (basis values)) 1) as [t1|]; cbn [option_map bind] in *;
    [|discriminate].
  injection H as <- <- <- <-.
  replace (fb * (c * t1)) with (c * (fb * t1)) by ring.
  replace (sqrt c11 * (c * t1)) with (c * (sqrt c11 * t1)) by ring.
  reflexivity.
Qed.

Lemma get_gaussian_fit_time_unit_witness :
  get_gaussian_fit (S := fixed_fit 2 10) (synthetic_series 50 0 1e-13 2 10)
  = Ok (2, sqrt 0, 10 * (0 + INR 1 * 1e-13), sqrt 0 * (0 + INR 1 * 1e-13))
  /\ get_gaussian_fit (S := fixed_fit 2 10)
       (mkDict
          (mkBasisWithTime
             (map (fun t => 1e12 * t)
                  (times (basis (synthetic_series 50 0 1e-13 2 10)))))
          (data (synthetic_series 50 0 1e-13 2 10)))
     = Ok (2, sqrt 0, 1e12 * (10 * (0 + INR 1 * 1e-13)),
           1e12 * (sqrt 0 * (0 + INR 1 * 1e-13))).
Proof.
  assert (H : get_gaussian_fit (S := fixed_fit 2 10)
                (synthetic_series 50 0 1e-13 2 10)
              = Ok (2, sqrt 0, 10 * (0 + INR 1 * 1e-13),
                    sqrt 0 * (0 + INR 1 * 1e-13))) by reflexivity.
  split; [exact H|].
  exact (get_gaussian_fit_time_unit (fixed_fit 2 10)
           (synthetic_series 50 0 1e-13 2 10) 1e12 _ _ _ _ H).
Defined.
